(** * confluence_chat: the streaming-conversation client

    A shallow embedding of the realtime core of the React frontend:
    - [frontend/src/types/index.ts]        the data model,
    - [frontend/src/hooks/useWebSocket.ts] the connection hook,
    - [frontend/src/App.tsx]               the inbound event handler
      [handleWebSocketMessage] and the send path [sendMessageToServer],
      then the handlers around them (stop, regenerate, send, the message
      actions, loading, deleting and archiving conversations, the exported
      file's name) and the submit of the ChatInput component.

    React state is modelled the way React runs it: [setMessages(fn)] puts
    the updater [fn] in a queue, and the next render folds the queue over
    the rendered list.  Refs ([useRef]) are plain mutable cells that are
    written at once.  An updater that reads a ref therefore sees the value
    the ref holds when the render runs, not when the updater was queued.
    A handler is a closure of the render that created it: the state it
    reads directly, such as [messages] in [sendMessageToServer], is the
    value of that render. *)

From stdpp Require Import base list strings option pretty.
From Stdlib Require Import ZArith QArith Lia.

Close Scope Q_scope.
Open Scope string_scope.
Open Scope list_scope.

(** ** types/index.ts *)

Inductive Role := user | assistant.

#[global] Instance Role_eq_dec : EqDecision Role.
Proof. solve_decision. Defined.

Record ChunkInfo := mkChunkInfo {
  page_title : string;
  page_url : string;
  similarity : Q;
}.

Record QueryDebugInfo := mkQueryDebugInfo {
  original_query : string;
  expanded_queries : list string;
  cql_query : string;
  pages_searched : Z;
  total_chunks_considered : Z;
  chunks_selected : Z;
  context_chars_used : Z;
  context_budget : Z;
  top_k : Z;
  mmr_lambda : Q;
  max_chunks_per_page : Z;
  selected_chunks_info : list ChunkInfo;
}.

(** [interface Message]; a field declared with [?] is [None] when absent. *)
Record Message := mkMessage {
  id : string;
  role : Role;
  content : string;
  timestamp : string;
  isStreaming : option bool;
  sources : option string;
  debugInfo : option QueryDebugInfo;
  isBookmarked : option bool;
  feedback : option Z;
  isEdited : option bool;
}.

(** [interface WebSocketMessage]: the [type] tag with the [content] at the
    type the handler casts it to for that tag ([as string] everywhere but
    [debug], which is [as QueryDebugInfo]; [complete] ignores it). *)
Inductive WebSocketMessage :=
  | ws_token (text : string)
  | ws_sources (text : string)
  | ws_debug (info : QueryDebugInfo)
  | ws_complete
  | ws_error (text : string)
  | ws_status (text : string).

(** JavaScript truthiness of an optional boolean field. *)
Definition truthy (b : option bool) : bool :=
  match b with Some true => true | _ => false end.

(** Field assignments on a message object. *)
Definition set_content (c : string) (m : Message) : Message :=
  mkMessage (id m) (role m) c (timestamp m) (isStreaming m) (sources m)
            (debugInfo m) (isBookmarked m) (feedback m) (isEdited m).

Definition set_isStreaming (b : bool) (m : Message) : Message :=
  mkMessage (id m) (role m) (content m) (timestamp m) (Some b) (sources m)
            (debugInfo m) (isBookmarked m) (feedback m) (isEdited m).

Definition set_sources (s : string) (m : Message) : Message :=
  mkMessage (id m) (role m) (content m) (timestamp m) (isStreaming m) (Some s)
            (debugInfo m) (isBookmarked m) (feedback m) (isEdited m).

Definition set_debugInfo (d : QueryDebugInfo) (m : Message) : Message :=
  mkMessage (id m) (role m) (content m) (timestamp m) (isStreaming m)
            (sources m) (Some d) (isBookmarked m) (feedback m) (isEdited m).

(** [role === 'assistant'] *)
Definition is_assistant (m : Message) : bool :=
  bool_decide (role m = assistant).

(** ** Array operations used by the updaters *)

(** [const newMessages = [...prev];
     const lastMessage = newMessages[newMessages.length - 1];
     if (lastMessage && cond) { mutate lastMessage } return newMessages;]
    An empty array gives [undefined], which is falsy. *)
Definition mutate_last (cond : Message -> bool) (f : Message -> Message)
    (prev : list Message) : list Message :=
  match last prev with
  | Some lastMessage =>
      if cond lastMessage then <[length prev - 1 := f lastMessage]> prev
      else prev
  | None => prev
  end.

(** [if (newMessages.length > 0 &&
         newMessages[newMessages.length - 1].isStreaming) newMessages.pop();] *)
Definition pop_if_streaming (prev : list Message) : list Message :=
  match last prev with
  | Some lastMessage =>
      if truthy (isStreaming lastMessage) then take (length prev - 1) prev
      else prev
  | None => prev
  end.

(** [prev.slice(0, -1)] *)
Definition slice_0_m1 (prev : list Message) : list Message :=
  take (length prev - 1) prev.

(** ** App.tsx: component state *)

(** A queued [setMessages] updater.  Its first argument is the value of
    [currentMessageRef.current] at the moment the updater runs. *)
Definition Updater : Type := string -> list Message -> list Message.

Record App := mkApp {
  messages : list Message;          (* useState: list of the last render *)
  pending : list Updater;           (* updaters queued since that render *)
  isLoading : bool;
  status : string;
  error : option string;
  isConnected : bool;
  currentMessageRef : string;       (* useRef *)
  loadConversations_calls : nat;    (* how often the refresh was triggered *)
}.

Definition setMessages (u : Updater) (s : App) : App :=
  mkApp (messages s) (pending s ++ [u]) (isLoading s) (status s) (error s)
        (isConnected s) (currentMessageRef s) (loadConversations_calls s).

Definition setIsLoading (b : bool) (s : App) : App :=
  mkApp (messages s) (pending s) b (status s) (error s)
        (isConnected s) (currentMessageRef s) (loadConversations_calls s).

Definition setStatus (t : string) (s : App) : App :=
  mkApp (messages s) (pending s) (isLoading s) t (error s)
        (isConnected s) (currentMessageRef s) (loadConversations_calls s).

Definition setError (e : option string) (s : App) : App :=
  mkApp (messages s) (pending s) (isLoading s) (status s) e
        (isConnected s) (currentMessageRef s) (loadConversations_calls s).

Definition setIsConnected (b : bool) (s : App) : App :=
  mkApp (messages s) (pending s) (isLoading s) (status s) (error s)
        b (currentMessageRef s) (loadConversations_calls s).

Definition set_currentMessageRef (r : string) (s : App) : App :=
  mkApp (messages s) (pending s) (isLoading s) (status s) (error s)
        (isConnected s) r (loadConversations_calls s).

Definition loadConversations (s : App) : App :=
  mkApp (messages s) (pending s) (isLoading s) (status s) (error s)
        (isConnected s) (currentMessageRef s) (S (loadConversations_calls s)).

(** A render: the queued updaters run in order over the rendered list. *)
Definition run_updaters (ref : string) (us : list Updater)
    (ms : list Message) : list Message :=
  fold_left (fun acc u => u ref acc) us ms.

Definition render (s : App) : App :=
  mkApp (run_updaters (currentMessageRef s) (pending s) (messages s)) []
        (isLoading s) (status s) (error s)
        (isConnected s) (currentMessageRef s) (loadConversations_calls s).

(** ** App.tsx: handleWebSocketMessage *)

Definition token_updater : Updater := fun ref prev =>
  mutate_last (fun lastMessage =>
                 is_assistant lastMessage && truthy (isStreaming lastMessage))
              (set_content ref) prev.

Definition sources_updater (text : string) : Updater := fun _ prev =>
  mutate_last is_assistant
              (fun lastMessage =>
                 set_sources text
                   (set_content (content lastMessage +:+ text) lastMessage))
              prev.

Definition debug_updater (info : QueryDebugInfo) : Updater := fun _ prev =>
  mutate_last is_assistant (set_debugInfo info) prev.

Definition complete_updater : Updater := fun _ prev =>
  mutate_last is_assistant (set_isStreaming false) prev.

Definition error_updater : Updater := fun _ prev => pop_if_streaming prev.

Definition handleWebSocketMessage (wsMessage : WebSocketMessage) (s : App)
    : App :=
  match wsMessage with
  | ws_status text => setStatus text s
  | ws_token text =>
      setMessages token_updater
        (set_currentMessageRef (currentMessageRef s +:+ text) s)
  | ws_sources text => setMessages (sources_updater text) s
  | ws_debug info => setMessages (debug_updater info) s
  | ws_complete =>
      loadConversations
        (set_currentMessageRef EmptyString
           (setStatus EmptyString
              (setIsLoading false (setMessages complete_updater s))))
  | ws_error text =>
      setMessages error_updater
        (set_currentMessageRef EmptyString
           (setStatus EmptyString
              (setIsLoading false (setError (Some text) s))))
  end.

(** Frames handled between two renders, then the render. *)
Definition deliver (frames : list WebSocketMessage) (s : App) : App :=
  render (fold_left (fun acc f => handleWebSocketMessage f acc) frames s).

(** One frame, rendered before the next one is handled. *)
Definition dispatch (wsMessage : WebSocketMessage) (s : App) : App :=
  deliver [wsMessage] s.

(** Batch after batch, a render after each. *)
Definition deliver_all (batches : list (list WebSocketMessage)) (s : App)
    : App :=
  fold_left (fun acc b => deliver b acc) batches s.

(** ** hooks/useWebSocket.ts *)

(** The object handed to [send]; the frame on the wire is its JSON text.
    [history] holds the [{role, content}] objects in order. *)
Module Request.
Record t := mk {
  conversation_id : string;
  content : string;
  history : list (Role * string);
}.
End Request.

(** What [JSON.parse] can return, seen through the unchecked cast
    [as WebSocketMessage]: [null], an object with one of the six tags, or
    any other value (whose [type] matches no case of the switch). *)
Inductive JsValue :=
  | js_null
  | js_event (message : WebSocketMessage)
  | js_other.

Inductive ReadyState := CONNECTING | OPEN | CLOSING | CLOSED.

#[global] Instance ReadyState_eq_dec : EqDecision ReadyState.
Proof. solve_decision. Defined.

(** A browser [WebSocket] object. *)
Record WebSocket := mkWebSocket {
  url : string;
  readyState : ReadyState;
  sent : list Request.t;
}.

(** [window.location] *)
Record Location := mkLocation {
  protocol : string;
  host : string;
}.

(** The refs of the hook and the channels it has created so far; [wsRef]
    holds the index of its channel in [sockets], [None] for [null]. *)
Record Conn := mkConn {
  sockets : list WebSocket;
  wsRef : option nat;
  reconnectTimeoutRef : option nat;
  isConnectingRef : bool;
  timers : list (nat * nat);        (* armed timeouts: handle, delay in ms *)
  next_timer : nat;                 (* handle the next [setTimeout] returns *)
}.

(** The functions the hook returns, and the handlers it installs. *)
Module UseWebSocket.

(** [wsRef.current?.readyState === WebSocket.OPEN] *)
Definition isConnected (c : Conn) : bool :=
  match wsRef c with
  | Some i =>
      match sockets c !! i with
      | Some ws => bool_decide (readyState ws = OPEN)
      | None => false
      end
  | None => false
  end.

(** [`${protocol}//${window.location.host}/ws/chat`] *)
Definition endpoint (loc : Location) : string :=
  let protocol :=
    if String.eqb (protocol loc) "https:" then "wss:" else "ws:" in
  protocol +:+ "//" +:+ host loc +:+ "/ws/chat".

Definition connect (loc : Location) (c : Conn) : Conn :=
  if isConnectingRef c || isConnected c then c
  else
    let wsUrl := endpoint loc in
    let ws := mkWebSocket wsUrl CONNECTING [] in
    mkConn (sockets c ++ [ws]) (Some (length (sockets c)))
           (reconnectTimeoutRef c) true (timers c) (next_timer c).

Definition disconnect (c : Conn) : Conn :=
  let timers' :=
    match reconnectTimeoutRef c with
    | Some (S t) => filter (fun e => e.1 <> S t) (timers c)
    | _ => timers c                 (* [null] and [0] are falsy *)
    end in
  let sockets' :=
    match wsRef c with
    | Some i =>
        alter (fun ws => mkWebSocket (url ws)
                           (match readyState ws with
                            | CLOSED => CLOSED
                            | _ => CLOSING
                            end) (sent ws)) i (sockets c)
    | None => sockets c
    end in
  mkConn sockets' None None (isConnectingRef c) timers' (next_timer c).

(** The armed timer with handle [t] fires: its callback is [connect]. *)
Definition timer_fires (loc : Location) (t : nat) (c : Conn) : Conn :=
  if bool_decide (elem_of t (fst <$> timers c)) then
    connect loc
      (mkConn (sockets c) (wsRef c) (reconnectTimeoutRef c) (isConnectingRef c)
              (filter (fun e => e.1 <> t) (timers c)) (next_timer c))
  else c.

Definition send (data : Request.t) (c : Conn) : bool * Conn :=
  if isConnected c then
    match wsRef c with
    | Some i =>
        (true,
         mkConn (alter (fun ws => mkWebSocket (url ws) (readyState ws)
                                    (sent ws ++ [data])) i (sockets c))
                (wsRef c) (reconnectTimeoutRef c) (isConnectingRef c)
                (timers c) (next_timer c))
    | None => (false, c)
    end
  else (false, c).

(** The socket event handlers, generic in the caller's state as the hook is
    generic in its [options]. *)
Section handlers.
Context {State : Type}.

Definition exn : Type := string.

(** A callback runs on the caller's state and may throw. *)
Definition Callback : Type := State -> State * (exn + unit).

Record Options := mkOptions {
  onMessage : JsValue -> Callback;
  onError : option (State -> State);
  onClose : option (State -> State);
  onOpen : option (State -> State);
}.

(** [JSON.parse]: the parsed value, or the [SyntaxError] it throws. *)
Variable JSON_parse : string -> exn + JsValue.
Variable options : Options.

Record World := mkWorld {
  st : State;
  conn : Conn;
  console : list string;              (* lines of [console.error] *)
  onMessage_calls : list JsValue;     (* arguments [onMessage] was called on *)
}.

(** Statements that act on the world and complete or throw. *)
Definition Eff (A : Type) : Type := World -> World * (exn + A).

Definition ret {A} (a : A) : Eff A := fun w => (w, inr a).

Definition bind {A B} (m : Eff A) (k : A -> Eff B) : Eff B := fun w =>
  match m w with
  | (w', inr a) => k a w'
  | (w', inl e) => (w', inl e)
  end.

Definition try_catch {A} (body : Eff A) (handler : exn -> Eff A) : Eff A :=
  fun w =>
    match body w with
    | (w', inr a) => (w', inr a)
    | (w', inl e) => handler e w'
    end.

Definition parse (data : string) : Eff JsValue := fun w =>
  (w, JSON_parse data).

Definition call_onMessage (message : JsValue) : Eff unit := fun w =>
  let '(st', r) := onMessage options message (st w) in
  (mkWorld st' (conn w) (console w) (onMessage_calls w ++ [message]), r).

Definition console_error (label : string) (err : exn) : Eff unit := fun w =>
  (mkWorld (st w) (conn w) (console w ++ [label +:+ " " +:+ err])
           (onMessage_calls w), inr tt).

Definition ws_onmessage (data : string) : Eff unit :=
  try_catch
    (bind (parse data) (fun message => call_onMessage message))
    (fun err => console_error "Failed to parse WebSocket message:" err).

Definition call_optional (cb : option (State -> State)) (s : State) : State :=
  match cb with Some f => f s | None => s end.

Definition ws_onopen (w : World) : World :=
  let c := conn w in
  mkWorld (call_optional (onOpen options) (st w))
          (mkConn (sockets c) (wsRef c) (reconnectTimeoutRef c) false
                  (timers c) (next_timer c))
          (console w) (onMessage_calls w).

Definition ws_onerror (w : World) : World :=
  let c := conn w in
  mkWorld (call_optional (onError options) (st w))
          (mkConn (sockets c) (wsRef c) (reconnectTimeoutRef c) false
                  (timers c) (next_timer c))
          (console w) (onMessage_calls w).

(** [onclose] arms a timer of 3000 ms whose callback is [connect]. *)
Definition ws_onclose (w : World) : World :=
  let c := conn w in
  mkWorld (call_optional (onClose options) (st w))
          (mkConn (sockets c) None (Some (next_timer c)) false
                  (timers c ++ [(next_timer c, 3000)]) (S (next_timer c)))
          (console w) (onMessage_calls w).
End handlers.
End UseWebSocket.

(** ** App.tsx: the hook's options and the send path *)

(** [handleWebSocketMessage] applied to what the parser returned: reading
    [wsMessage.type] of [null] throws before anything is touched. *)
Definition onMessage_App (v : JsValue) : @UseWebSocket.Callback App := fun s =>
  match v with
  | js_null =>
      (s, inl "TypeError: Cannot read properties of null (reading 'type')")
  | js_event wsMessage => (handleWebSocketMessage wsMessage s, inr tt)
  | js_other => (s, inr tt)
  end.

Definition App_options : @UseWebSocket.Options App :=
  UseWebSocket.mkOptions onMessage_App
    (Some (setError (Some "Failed to connect to server")))
    (Some (setIsConnected false))
    (Some (fun s => setError None (setIsConnected true s))).

(** The values [Date.now()] and [new Date().toISOString()] return at the
    four places [sendMessageToServer] calls them. *)
Record Clock := mkClock {
  now_user : N;
  iso_user : string;
  now_assistant : N;
  iso_assistant : string;
}.

Definition userMessage (clock : Clock) (content : string) : Message :=
  mkMessage (pretty (now_user clock)) user content (iso_user clock)
            None None None None None None.

Definition assistantMessage (clock : Clock) : Message :=
  mkMessage (pretty (now_assistant clock + 1)%N) assistant EmptyString
            (iso_assistant clock) (Some true) None None None None None.

(** [messages.map((msg) => ({ role: msg.role, content: msg.content }))] *)
Definition history_of (ms : list Message) : list (Role * string) :=
  map (fun msg => (role msg, content msg)) ms.

(** [sendMessageToServer] is a closure of the render that created it.  Its
    [messages] is a const of that render ([messages_const]): the history is
    mapped from it, whatever has been queued or rendered since.  Its
    [setMessages] calls queue updaters, which run on the list as it stands
    when the queue is flushed. *)
Definition sendMessageToServer_of (messages_const : list Message)
    (clock : Clock) (conversationId content : string)
    (s : App) (c : Conn) : App * Conn :=
  let s := setError None s in
  let s := setMessages (fun _ prev => prev ++ [userMessage clock content]) s in
  let s := setMessages (fun _ prev => prev ++ [assistantMessage clock]) s in
  let s := setIsLoading true s in
  let s := set_currentMessageRef EmptyString s in
  let history := history_of messages_const in
  let '(sent, c) :=
    UseWebSocket.send (Request.mk conversationId content history) c in
  if sent then (s, c)
  else
    (setMessages (fun _ prev => slice_0_m1 prev)
       (setIsLoading false (setError (Some "Not connected to server") s)), c).

(** The handler of the latest render, called before the next one: its
    [messages] is the rendered list [messages s], without the updaters that
    are still pending. *)
Definition sendMessageToServer (clock : Clock) (conversationId content : string)
    (s : App) (c : Conn) : App * Conn :=
  sendMessageToServer_of (messages s) clock conversationId content s c.

(** A turn as the user sees it: the send path, then the render. *)
Definition start_turn (clock : Clock) (conversationId content : string)
    (s : App) (c : Conn) : App * Conn :=
  let '(s', c') := sendMessageToServer clock conversationId content s c in
  (render s', c').

(** ** Vocabulary of the statements *)

(** The token payloads of a turn, concatenated in arrival order. *)
Definition join_tokens (toks : list string) : string :=
  foldr String.append EmptyString toks.

(** Number of messages whose streaming flag is set. *)
Definition count_streaming (ms : list Message) : nat :=
  length (filter (fun m => truthy (isStreaming m) = true) ms).

(** A rendered state: no updater is waiting for a render. *)
Definition rendered (s : App) : Prop := pending s = [].

(** ** The scenario of the spec, as concrete values

    The user sends "Hello" on conversation [c1] with no prior messages. *)

Definition clock0 : Clock :=
  mkClock 1700000000000 "2023-11-14T22:13:20.000Z"
          1700000000000 "2023-11-14T22:13:20.000Z".

Definition clock1 : Clock :=
  mkClock 1700000005000 "2023-11-14T22:13:25.000Z"
          1700000005000 "2023-11-14T22:13:25.000Z".

(** The component as first rendered: the initial [useState] values. *)
Definition app0 : App := mkApp [] [] false EmptyString None false EmptyString 0.

Definition loc0 : Location := mkLocation "https:" "chat.example.org".

(** The hook as created; the browser's timer handles start at 1. *)
Definition conn_init : Conn := mkConn [] None None false [] 1.

(** The browser's part: the channel at index [i] changes its [readyState],
    and the matching event fires. *)
Definition set_readyState (i : nat) (r : ReadyState) (c : Conn) : Conn :=
  mkConn (alter (fun ws => mkWebSocket (url ws) r (sent ws)) i (sockets c))
         (wsRef c) (reconnectTimeoutRef c) (isConnectingRef c)
         (timers c) (next_timer c).

Definition browser_opens (i : nat) (s : App) (c : Conn) : App * Conn :=
  let w := UseWebSocket.ws_onopen App_options
             (UseWebSocket.mkWorld s (set_readyState i OPEN c) [] []) in
  (UseWebSocket.st w, UseWebSocket.conn w).

Definition browser_closes (i : nat) (s : App) (c : Conn) : App * Conn :=
  let w := UseWebSocket.ws_onclose App_options
             (UseWebSocket.mkWorld s (set_readyState i CLOSED c) [] []) in
  (UseWebSocket.st w, UseWebSocket.conn w).

(** The mount effect calls [connect]; the channel opens and [onOpen] runs. *)
Definition online : App * Conn :=
  browser_opens 0 app0 (UseWebSocket.connect loc0 conn_init).

Definition app_online : App := fst online.
Definition conn_open : Conn := snd online.

(** The channel closes before anything was sent: [onClose] runs and the
    reconnect timer is armed. *)
Definition offline : App * Conn := browser_closes 0 app_online conn_open.

Definition app_offline : App := fst offline.
Definition conn_closed : Conn := snd offline.

(** "Hello" sent on the open channel: the turn is streaming. *)
Definition turn1 : App * Conn :=
  start_turn clock0 "c1" "Hello" app_online conn_open.

Definition app_streaming : App := fst turn1.
Definition conn_streaming : Conn := snd turn1.

(** The reply "Hi there" streamed and completed. *)
Definition app_completed : App :=
  deliver_all [[ws_token "Hi"]; [ws_token " there"]; [ws_complete]]
    app_streaming.

(** The last user message sent again (regeneration) while the first turn
    still streams: a second placeholder follows the first. *)
Definition app_two_turns : App :=
  fst (start_turn clock1 "c1" "Hello" app_streaming conn_streaming).

(** The channel closes under the streaming turn. *)
Definition dropped : App * Conn :=
  browser_closes 0 app_streaming conn_streaming.

Definition app_dropped : App := fst dropped.
Definition conn_dropped : Conn := snd dropped.

(** ... and the last user message is sent again while the channel is down:
    [send] fails. *)
Definition app_second_send_failed : App :=
  fst (start_turn clock1 "c1" "Hello" app_dropped conn_dropped).

(** A stand-in for [JSON.parse] on a few texts: [null], two texts that are
    JSON but no event, and a [SyntaxError] for everything else. *)
Definition JSON_parse0 (data : string) : UseWebSocket.exn + JsValue :=
  if String.eqb data "null" then inr js_null
  else if String.eqb data "true" then inr js_other
  else if String.eqb data "42" then inr js_other
  else inl "SyntaxError: Unexpected token".

(** ** App.tsx: the component's other state and handlers *)

(** How an awaited [fetch] ends for its handler: a response with [ok] set
    and its parsed body, a response with [ok] unset, or a rejection (the
    network failed, or the body did not parse), which lands in the
    handler's [catch] with the error's text. *)
Inductive Fetch (A : Type) :=
  | fetch_ok (body : A)
  | fetch_not_ok
  | fetch_rejected (err : string).

Arguments fetch_ok {A} body.
Arguments fetch_not_ok {A}.
Arguments fetch_rejected {A} err.

(** The HTTP calls the handlers make: method, URL and JSON body. *)
Module Http.
Inductive body :=
  | no_body
  | title_body (title : string)
  | content_body (content : string)
  | feedback_body (feedback : Z).

Record t := mk {
  method : string;
  url : string;
  payload : body;
}.
End Http.

(** A message as [/api/conversations/:id/messages] returns it, at the type
    [loadMessages] annotates ([role] at the type it is cast to). *)
Module ServerMessage.
Record t := mk {
  id : string;
  role : Role;
  content : string;
  timestamp : string;
  is_bookmarked : option bool;
  feedback : option Z;
  is_edited : option bool;
}.
End ServerMessage.

(** The component state the handlers below read and write, around the
    state of the streaming core. *)
Record Session := mkSession {
  app : App;
  currentConversationId : option string;
  systemPrompt : string;
  showArchived : bool;
  inputValue : string;
  requests : list Http.t;           (* the [fetch] calls made, in order *)
  logged : list string;             (* lines of [console.error] *)
}.

Definition on_app (f : App -> App) (s : Session) : Session :=
  mkSession (f (app s)) (currentConversationId s) (systemPrompt s)
            (showArchived s) (inputValue s) (requests s) (logged s).

Definition setCurrentConversationId (i : option string) (s : Session)
    : Session :=
  mkSession (app s) i (systemPrompt s) (showArchived s) (inputValue s)
            (requests s) (logged s).

Definition setSystemPrompt (p : string) (s : Session) : Session :=
  mkSession (app s) (currentConversationId s) p (showArchived s)
            (inputValue s) (requests s) (logged s).

Definition setInputValue (v : string) (s : Session) : Session :=
  mkSession (app s) (currentConversationId s) (systemPrompt s)
            (showArchived s) v (requests s) (logged s).

Definition fetch (method url : string) (payload : Http.body) (s : Session)
    : Session :=
  mkSession (app s) (currentConversationId s) (systemPrompt s)
            (showArchived s) (inputValue s)
            (requests s ++ [Http.mk method url payload]) (logged s).

Definition log_error (label err : string) (s : Session) : Session :=
  mkSession (app s) (currentConversationId s) (systemPrompt s)
            (showArchived s) (inputValue s) (requests s)
            (logged s ++ [label +:+ " " +:+ err]).

(** Truthiness of [string | null]: [null] and the empty string are falsy. *)
Definition truthy_string (o : option string) : option string :=
  match o with
  | Some EmptyString => None
  | other => other
  end.

(** [setMessages(value)]: an update that ignores the previous list. *)
Definition setMessages_value (value : list Message) : App -> App :=
  setMessages (fun _ _ => value).

Definition handleStopGeneration (r : Fetch unit) (s : Session) : Session :=
  match truthy_string (currentConversationId s) with
  | Some cid =>
      let s := fetch "POST" ("/api/conversations/" +:+ cid +:+ "/stop")
                 Http.no_body s in
      match r with
      | fetch_rejected err => log_error "Failed to stop generation:" err s
      | _ => on_app (fun a => setStatus EmptyString (setIsLoading false a)) s
      end
  | None => s
  end.

Definition handleNewConversation (r : Fetch string) (s : Session) : Session :=
  let s := fetch "POST" "/api/conversations"
             (Http.title_body "New Conversation") s in
  match r with
  | fetch_ok data_id =>
      on_app loadConversations
        (setSystemPrompt EmptyString
           (on_app (setMessages_value [])
              (setCurrentConversationId (Some data_id) s)))
  | fetch_not_ok => s
  | fetch_rejected err => log_error "Failed to create conversation:" err s
  end.

(** The object [loadMessages] builds from the [i]-th fetched message;
    [now i] is what [Date.now()] returns there. *)
Definition message_of_server (now : nat -> N) (i : nat)
    (msg : ServerMessage.t) : Message :=
  mkMessage (match ServerMessage.id msg with
             | EmptyString => pretty (now i)
             | msg_id => msg_id
             end)
            (ServerMessage.role msg) (ServerMessage.content msg)
            (ServerMessage.timestamp msg) None None None
            (ServerMessage.is_bookmarked msg) (ServerMessage.feedback msg)
            (ServerMessage.is_edited msg).

Definition loadMessages (now : nat -> N) (conversationId : string)
    (r : Fetch (list ServerMessage.t)) (s : Session) : Session :=
  let s := fetch "GET"
             ("/api/conversations/" +:+ conversationId +:+ "/messages")
             Http.no_body s in
  match r with
  | fetch_ok data =>
      on_app (setMessages_value (imap (message_of_server now) data)) s
  | fetch_not_ok => s
  | fetch_rejected err => log_error "Failed to load messages:" err s
  end.

(** [data.system_prompt || ''] on the [null]-able field *)
Definition handleSelectConversation (now : nat -> N) (id : string)
    (r_messages : Fetch (list ServerMessage.t))
    (r_prompt : Fetch (option string)) (s : Session) : Session :=
  let s := setCurrentConversationId (Some id) s in
  let s := loadMessages now id r_messages s in
  let s := fetch "GET" ("/api/conversations/" +:+ id +:+ "/system-prompt")
             Http.no_body s in
  match r_prompt with
  | fetch_ok data_system_prompt =>
      setSystemPrompt (default EmptyString data_system_prompt) s
  | fetch_not_ok => s
  | fetch_rejected err => log_error "Failed to load system prompt:" err s
  end.

Definition handleDeleteConversation (id : string) (r : Fetch unit)
    (s : Session) : Session :=
  let s0 := s in
  let s := fetch "DELETE" ("/api/conversations/" +:+ id) Http.no_body s in
  match r with
  | fetch_rejected err => log_error "Failed to delete conversation:" err s
  | _ =>
      let s :=
        if bool_decide (currentConversationId s0 = Some id)
        then on_app (setMessages_value []) (setCurrentConversationId None s)
        else s in
      on_app loadConversations s
  end.

Definition handleArchiveConversation (id : string) (r : Fetch unit)
    (s : Session) : Session :=
  let s0 := s in
  let s := fetch "POST" ("/api/conversations/" +:+ id +:+ "/archive")
             Http.no_body s in
  match r with
  | fetch_rejected err => log_error "Failed to archive conversation:" err s
  | _ =>
      let s :=
        if bool_decide (currentConversationId s0 = Some id)
           && negb (showArchived s0)
        then on_app (setMessages_value []) (setCurrentConversationId None s)
        else s in
      on_app loadConversations s
  end.

(** *** Message actions *)

Definition set_isEdited (b : bool) (m : Message) : Message :=
  mkMessage (id m) (role m) (content m) (timestamp m) (isStreaming m)
            (sources m) (debugInfo m) (isBookmarked m) (feedback m) (Some b).

Definition set_isBookmarked (b : bool) (m : Message) : Message :=
  mkMessage (id m) (role m) (content m) (timestamp m) (isStreaming m)
            (sources m) (debugInfo m) (Some b) (feedback m) (isEdited m).

Definition set_feedback (f : Z) (m : Message) : Message :=
  mkMessage (id m) (role m) (content m) (timestamp m) (isStreaming m)
            (sources m) (debugInfo m) (isBookmarked m) (Some f) (isEdited m).

(** [prev.map((msg) => (msg.id === messageId ? change(msg) : msg))] *)
Definition map_by_id (messageId : string) (change : Message -> Message)
    (prev : list Message) : list Message :=
  map (fun msg => if String.eqb (id msg) messageId then change msg else msg)
      prev.

Definition edit_updater (messageId content : string) : Updater := fun _ prev =>
  map_by_id messageId (fun msg => set_isEdited true (set_content content msg))
            prev.

Definition delete_updater (messageId : string) : Updater := fun _ prev =>
  filter (fun msg => id msg <> messageId) prev.

Definition bookmark_updater (messageId : string) : Updater := fun _ prev =>
  map_by_id messageId
            (fun msg => set_isBookmarked (negb (truthy (isBookmarked msg))) msg)
            prev.

Definition feedback_updater (messageId : string) (feedback : Z) : Updater :=
  fun _ prev => map_by_id messageId (set_feedback feedback) prev.

Definition handleEditMessage (messageId content : string) (r : Fetch unit)
    (s : Session) : Session :=
  let s := fetch "PUT" ("/api/messages/" +:+ messageId)
             (Http.content_body content) s in
  match r with
  | fetch_rejected _ => on_app (setError (Some "Failed to edit message")) s
  | _ => on_app (setMessages (edit_updater messageId content)) s
  end.

Definition handleDeleteMessage (messageId : string) (r : Fetch unit)
    (s : Session) : Session :=
  let s := fetch "DELETE" ("/api/messages/" +:+ messageId) Http.no_body s in
  match r with
  | fetch_rejected _ => on_app (setError (Some "Failed to delete message")) s
  | _ => on_app (setMessages (delete_updater messageId)) s
  end.

Definition handleBookmarkMessage (messageId : string) (r : Fetch unit)
    (s : Session) : Session :=
  let s := fetch "POST" ("/api/messages/" +:+ messageId +:+ "/bookmark")
             Http.no_body s in
  match r with
  | fetch_rejected _ => on_app (setError (Some "Failed to bookmark message")) s
  | _ => on_app (setMessages (bookmark_updater messageId)) s
  end.

Definition handleFeedbackMessage (messageId : string) (feedback : Z)
    (r : Fetch unit) (s : Session) : Session :=
  let s := fetch "POST" ("/api/messages/" +:+ messageId +:+ "/feedback")
             (Http.feedback_body feedback) s in
  match r with
  | fetch_rejected _ => on_app (setError (Some "Failed to set feedback")) s
  | _ => on_app (setMessages (feedback_updater messageId feedback)) s
  end.

(** *** Sending *)

(** [sendMessageToServer] on the session: it touches the streaming core and
    the channel only. *)
Definition send_in_session (clock : Clock) (conversationId content : string)
    (s : Session) (c : Conn) : Session * Conn :=
  let '(a, c') := sendMessageToServer clock conversationId content (app s) c in
  (on_app (fun _ => a) s, c').

(** [[...messages].reverse().find((m) => m.role === 'user')] *)
Definition lastUserMessage (ms : list Message) : option Message :=
  find (fun m => bool_decide (role m = user)) (reverse ms).

Definition handleRegenerateMessage (clock : Clock) (_messageId : string)
    (s : Session) (c : Conn) : Session * Conn :=
  match lastUserMessage (messages (app s)),
        truthy_string (currentConversationId s) with
  | Some m, Some cid => send_in_session clock cid (content m) s c
  | _, _ => (s, c)
  end.

Definition handleSendMessage (clock : Clock) (content : string)
    (r : Fetch string) (s : Session) (c : Conn) : Session * Conn :=
  match truthy_string (currentConversationId s) with
  | None =>
      let s := fetch "POST" "/api/conversations"
                 (Http.title_body (String.substring 0 50 content)) s in
      match r with
      | fetch_ok data_id =>
          let s := setCurrentConversationId (Some data_id) s in
          let '(s, c) := send_in_session clock data_id content s c in
          (on_app loadConversations s, c)
      | fetch_not_ok => (s, c)
      | fetch_rejected _ =>
          (on_app (setError (Some "Failed to create conversation")) s, c)
      end
  | Some cid => send_in_session clock cid content s c
  end.

(** *** The ChatInput component: handleSubmit, and the props App passes *)

(** [handleSubmit]: the text handed to [onSend], if any; [trim] is
    [String.prototype.trim]. *)
Definition ChatInput_handleSubmit (trim : string -> string) (input : string)
    (disabled isLoading : bool) : option string :=
  let trimmed := trim input in
  if negb (String.eqb trimmed EmptyString) && negb disabled && negb isLoading
  then Some trimmed
  else None.

(** The submit of the input as App mounts it: [disabled] is [!isConnected],
    [onSend] runs [handleSendMessage] and clears the input, and so does the
    input's own [setInput('')]. *)
Definition submit_input (trim : string -> string) (clock : Clock)
    (r : Fetch string) (s : Session) (c : Conn) : Session * Conn :=
  match ChatInput_handleSubmit trim (inputValue s)
          (negb (isConnected (app s))) (isLoading (app s)) with
  | Some trimmed =>
      let '(s, c) := handleSendMessage clock trimmed r s c in
      (setInputValue EmptyString (setInputValue EmptyString s), c)
  | None => (s, c)
  end.

(** *** The name of the exported file

    [`conversation-${data.title.replace(/[^a-z0-9]/gi, '_').toLowerCase()}
      -${Date.now()}.json`].  A character of a string stands for one UTF-16
    code unit, so the titles covered are those of code units below 256; on
    these the pattern [[^a-z0-9]] with flag [i] matches all but the ASCII
    letters and digits. *)

Definition code_in (lo hi : N) (c : Ascii.ascii) : bool :=
  (lo <=? Ascii.N_of_ascii c)%N && (Ascii.N_of_ascii c <=? hi)%N.

Definition is_ascii_alnum (c : Ascii.ascii) : bool :=
  code_in 48 57 c || code_in 65 90 c || code_in 97 122 c.

Fixpoint map_chars (f : Ascii.ascii -> Ascii.ascii) (s : string) : string :=
  match s with
  | EmptyString => EmptyString
  | String c rest => String (f c) (map_chars f rest)
  end.

(** The character [_]. *)
Definition underscore : Ascii.ascii := Ascii.ascii_of_N 95.

(** [.replace(/[^a-z0-9]/gi, '_')] *)
Definition replace_non_alnum (s : string) : string :=
  map_chars (fun c => if is_ascii_alnum c then c else underscore) s.

(** [.toLowerCase()] on code units below 256: A-Z, and the Latin-1 capitals
    (all of C0-DE but the multiplication sign D7), move up by 32. *)
Definition toLowerCase (s : string) : string :=
  map_chars (fun c =>
               if code_in 65 90 c
                  || (code_in 192 222 c
                      && negb (Ascii.N_of_ascii c =? 215)%N)
               then Ascii.ascii_of_N (Ascii.N_of_ascii c + 32)
               else c) s.

Definition export_filename (title : string) (now : N) : string :=
  "conversation-" +:+ toLowerCase (replace_non_alnum title) +:+ "-" +:+
  pretty now +:+ ".json".

(** A character a file name's title part may hold: a-z, 0-9 or [_]. *)
Definition is_clean (c : Ascii.ascii) : bool :=
  code_in 48 57 c || code_in 97 122 c || (Ascii.N_of_ascii c =? 95)%N.

Fixpoint all_chars (p : Ascii.ascii -> bool) (s : string) : bool :=
  match s with
  | EmptyString => true
  | String c rest => p c && all_chars p rest
  end.

(** What the two steps do to one character. *)
Definition sanitize_char (c : Ascii.ascii) : Ascii.ascii :=
  let c1 := if is_ascii_alnum c then c else underscore in
  if code_in 65 90 c1
     || (code_in 192 222 c1 && negb (Ascii.N_of_ascii c1 =? 215)%N)
  then Ascii.ascii_of_N (Ascii.N_of_ascii c1 + 32)
  else c1.

(** ** The reconnect loop *)



(** ** Sample sessions *)

(** Conversation [c1] is active and its first turn streams. *)
Definition session_streaming : Session :=
  mkSession app_streaming (Some "c1") EmptyString false EmptyString [] [].

(** ... and once the reply is complete, with a follow-up typed in. *)
Definition session_completed : Session :=
  mkSession app_completed (Some "c1") EmptyString false "  And then?  " [] [].

(** No conversation yet, the channel open, a first message typed in. *)
Definition session_new : Session :=
  mkSession app_online None EmptyString false "Hello" [] [].

(** What the server holds for conversation [c2]. *)
Definition server_c2 : list ServerMessage.t :=
  [ServerMessage.mk "m1" user "Where is the runbook?" "2023-11-13T09:00:00Z"
     None None None;
   ServerMessage.mk EmptyString assistant "In the Ops space."
     "2023-11-13T09:00:04Z" (Some true) (Some 1%Z) None].

(** A stand-in for [trim] that strips the blanks of the sample inputs. *)
Definition trim0 (input : string) : string :=
  if String.eqb input "  And then?  " then "And then?"
  else if String.eqb input "   " then EmptyString
  else input.

(** The user opens conversation [c2] while the reply of the first turn
    still streams: the list on screen is the loaded one. *)
Definition session_switched : Session :=
  on_app render
    (handleSelectConversation (fun _ => 0%N) "c2" (fetch_ok server_c2)
       (fetch_ok None) session_streaming).



(** A first message is submitted with no conversation active, and while
    [handleSendMessage] awaits the new conversation's id the user opens
    conversation [c2]: its messages are loaded and rendered.  The awaiting
    handler still holds the empty list of its own render. *)
Definition session_loaded_meanwhile : Session :=
  on_app render
    (handleSelectConversation (fun _ => 0%N) "c2" (fetch_ok server_c2)
       (fetch_ok None) session_new).

Definition send_after_await : App * Conn :=
  sendMessageToServer_of (messages (app session_new)) clock0 "c3" "Hello"
    (app session_loaded_meanwhile) conn_open.

(** ** Vocabulary of the further statements *)

Definition is_user (m : Message) : Prop := role m = user.

(** The flag is set on assistant messages only. *)
Definition users_not_streaming (ms : list Message) : Prop :=
  Forall (fun m => role m = user -> truthy (isStreaming m) = false) ms.

Definition is_error_frame (f : WebSocketMessage) : bool :=
  match f with ws_error _ => true | _ => false end.

(** The updater a frame's handler queues, if any. *)
Definition frame_updater (f : WebSocketMessage) : option Updater :=
  match f with
  | ws_status _ => None
  | ws_token _ => Some token_updater
  | ws_sources text => Some (sources_updater text)
  | ws_debug info => Some (debug_updater info)
  | ws_complete => Some complete_updater
  | ws_error _ => Some error_updater
  end.

(** What identifies a message and fixes its place: id, role, timestamp. *)
Definition message_key (m : Message) : string * Role * string :=
  (id m, role m, timestamp m).

(** Frames that neither end a turn nor touch the content besides tokens. *)
Definition is_token_status_debug (f : WebSocketMessage) : bool :=
  match f with ws_token _ | ws_status _ | ws_debug _ => true | _ => false end.

Definition is_token_status_error (f : WebSocketMessage) : bool :=
  match f with ws_token _ | ws_status _ | ws_error _ => true | _ => false end.

(** [u] is one of the three actions that rewrite the message [messageId]
    in place: edit, bookmark, feedback. *)
Definition action_target (u : Updater) (messageId : string) : Prop :=
  (exists content, u = edit_updater messageId content) \/
  u = bookmark_updater messageId \/
  (exists feedback, u = feedback_updater messageId feedback).

(** The payloads of the token frames among [frames], in order. *)
Definition token_payloads (frames : list WebSocketMessage) : list string :=
  omap (fun f => match f with ws_token t => Some t | _ => None end) frames.

(** * Lemmas on the array operations *)

Lemma mutate_last_nil cond f : mutate_last cond f [] = [].
Proof. reflexivity. Qed.

Lemma mutate_last_snoc cond f (front : list Message) (m : Message) :
  mutate_last cond f (front ++ [m]) = front ++ [if cond m then f m else m].
Proof.
  unfold mutate_last. rewrite last_snoc.
  destruct (cond m); [|reflexivity].
  rewrite length_app; simpl.
  replace (length front + 1 - 1) with (length front + 0) by lia.
  rewrite insert_app_r. reflexivity.
Qed.

Lemma pop_if_streaming_nil : pop_if_streaming [] = [].
Proof. reflexivity. Qed.

Lemma pop_if_streaming_snoc (front : list Message) (m : Message) :
  pop_if_streaming (front ++ [m]) =
  if truthy (isStreaming m) then front else front ++ [m].
Proof.
  unfold pop_if_streaming. rewrite last_snoc.
  destruct (truthy (isStreaming m)); [|reflexivity].
  rewrite length_app; simpl.
  replace (length front + 1 - 1) with (length front) by lia.
  apply take_app_length.
Qed.

Lemma slice_0_m1_snoc (front : list Message) (m : Message) :
  slice_0_m1 (front ++ [m]) = front.
Proof.
  unfold slice_0_m1. rewrite length_app; simpl.
  replace (length front + 1 - 1) with (length front) by lia.
  apply take_app_length.
Qed.

(** Every list is empty or ends in a last element. *)
Lemma snoc_cases (ms : list Message) :
  ms = [] \/ exists front m, ms = front ++ [m].
Proof.
  destruct (last ms) as [m|] eqn:E.
  - right. apply last_Some in E as [front ->]. eauto.
  - left. by apply last_None.
Qed.

Lemma set_content_twice c c' m :
  set_content c (set_content c' m) = set_content c m.
Proof. reflexivity. Qed.

Lemma str_app_cons (x : Ascii.ascii) (a b : string) :
  String x a +:+ b = String x (a +:+ b).
Proof. reflexivity. Qed.

Lemma str_app_nil_l (b : string) : EmptyString +:+ b = b.
Proof. reflexivity. Qed.

Lemma str_app_assoc (a b c : string) : (a +:+ b) +:+ c = a +:+ (b +:+ c).
Proof.
  induction a as [|x a IH]; [reflexivity|].
  rewrite !str_app_cons. by rewrite IH.
Qed.

Lemma str_app_nil_r (a : string) : a +:+ EmptyString = a.
Proof.
  induction a as [|x a IH]; [reflexivity|].
  rewrite str_app_cons. by rewrite IH.
Qed.

Lemma join_tokens_app (xs ys : list string) :
  join_tokens (xs ++ ys) = join_tokens xs +:+ join_tokens ys.
Proof.
  induction xs as [|x xs IH]; simpl; [reflexivity|].
  by rewrite IH, str_app_assoc.
Qed.

(** * Token frames *)

(** Handling token frames without a render in between: the ref holds the
    whole text at once, and one updater per frame waits in the queue. *)
Lemma handle_tokens (toks : list string) (s : App) :
  fold_left (fun acc f => handleWebSocketMessage f acc) (map ws_token toks) s =
  mkApp (messages s) (pending s ++ replicate (length toks) token_updater)
        (isLoading s) (status s) (error s) (isConnected s)
        (currentMessageRef s +:+ join_tokens toks) (loadConversations_calls s).
Proof.
  revert s. induction toks as [|t toks IH]; intros s; simpl.
  - rewrite app_nil_r, str_app_nil_r. by destruct s.
  - rewrite IH. simpl. rewrite <- app_assoc, str_app_assoc. reflexivity.
Qed.

(** The queued token updaters all write the same text: the ref's value at
    the render. *)
Lemma run_token_updaters ref (n : nat) (front : list Message) (m : Message) :
  role m = assistant -> isStreaming m = Some true ->
  run_updaters ref (replicate n token_updater) (front ++ [m]) =
  front ++ [match n with O => m | S _ => set_content ref m end].
Proof.
  intros Hr Hs. unfold run_updaters.
  assert (Hstep : forall m',
            role m' = assistant -> isStreaming m' = Some true ->
            token_updater ref (front ++ [m']) = front ++ [set_content ref m']).
  { intros m' Hr' Hs'. unfold token_updater. rewrite mutate_last_snoc.
    unfold is_assistant. rewrite Hr', Hs'. reflexivity. }
  destruct n as [|n]; [reflexivity|]. simpl. rewrite (Hstep m Hr Hs).
  induction n as [|n IH]; [reflexivity|]. simpl.
  rewrite Hstep by assumption. rewrite set_content_twice. exact IH.
Qed.

Lemma deliver_tokens (toks : list string) (s : App) (front : list Message)
    (m : Message) :
  rendered s -> messages s = front ++ [m] ->
  role m = assistant -> isStreaming m = Some true ->
  deliver (map ws_token toks) s =
  mkApp (front ++
         [match toks with
          | [] => m
          | _ => set_content (currentMessageRef s +:+ join_tokens toks) m
          end]) []
        (isLoading s) (status s) (error s) (isConnected s)
        (currentMessageRef s +:+ join_tokens toks) (loadConversations_calls s).
Proof.
  intros Hp Hm Hr Hs. unfold deliver. rewrite handle_tokens.
  unfold render; simpl. rewrite Hp, Hm; simpl.
  rewrite run_token_updaters by assumption.
  by destruct toks.
Qed.

(** Token frames in any batching. *)
Lemma deliver_all_tokens (batches : list (list string)) (s : App)
    (front : list Message) (m : Message) :
  rendered s -> messages s = front ++ [m] ->
  role m = assistant -> isStreaming m = Some true ->
  deliver_all (map (map ws_token) batches) s =
  mkApp (front ++
         [match concat batches with
          | [] => m
          | _ => set_content
                   (currentMessageRef s +:+ join_tokens (concat batches)) m
          end]) []
        (isLoading s) (status s) (error s) (isConnected s)
        (currentMessageRef s +:+ join_tokens (concat batches))
        (loadConversations_calls s).
Proof.
  revert s m. induction batches as [|b bs IH]; intros s m Hp Hm Hr Hs.
  - simpl. rewrite str_app_nil_r. unfold rendered in Hp.
    destruct s; simpl in *; congruence.
  - simpl. unfold deliver_all in IH.
    rewrite (deliver_tokens b s front m Hp Hm Hr Hs).
    erewrite IH; [| reflexivity | reflexivity | | ]; simpl.
    + destruct b as [|t b], (concat bs) as [|t' c]; simpl;
        rewrite ?join_tokens_app; simpl;
        rewrite ?app_nil_r, ?str_app_assoc, ?str_app_nil_r; reflexivity.
    + by destruct b.
    + by destruct b.
Qed.

(** C1.  A turn's token frames, however they are batched between renders,
    leave the streaming assistant message with the concatenation of their
    payloads in arrival order as its content.  The turn starts rendered,
    with an empty accumulator and an assistant message marked streaming as
    the last element; when no token frame arrives at all the content is
    the one the placeholder has, which is empty. *)
Theorem token_content_is_concatenation (batches : list (list string))
    (s : App) (front : list Message) (m : Message) :
  rendered s ->
  currentMessageRef s = EmptyString ->
  messages s = front ++ [m] ->
  role m = assistant -> isStreaming m = Some true ->
  content m = EmptyString \/ concat batches <> [] ->
  let s' := deliver_all (map (map ws_token) batches) s in
  messages s' = front ++ [set_content (join_tokens (concat batches)) m] /\
  (exists m', last (messages s') = Some m' /\ isStreaming m' = Some true /\
              content m' = join_tokens (concat batches)).
Proof.
  intros Hp Href Hm Hr Hs Hne s'.
  assert (E : messages s' =
              front ++ [set_content (join_tokens (concat batches)) m]).
  { unfold s'. rewrite (deliver_all_tokens batches s front m Hp Hm Hr Hs).
    simpl. rewrite Href. simpl.
    destruct (concat batches) as [|t ts] eqn:Ec; [|reflexivity].
    destruct Hne as [Hc|Hc]; [|congruence].
    simpl. destruct m; simpl in *; subst; reflexivity. }
  split; [exact E|].
  exists (set_content (join_tokens (concat batches)) m).
  rewrite E, last_snoc. auto.
Qed.

(** The frames of the spec's scenario, one render per frame. *)
Lemma token_content_is_concatenation_witness :
  rendered app_streaming /\
  currentMessageRef app_streaming = EmptyString /\
  messages app_streaming =
    [userMessage clock0 "Hello"] ++ [assistantMessage clock0] /\
  messages (deliver_all [[ws_token "Hi"]; [ws_token " there"]] app_streaming) =
    [userMessage clock0 "Hello"] ++
    [set_content "Hi there" (assistantMessage clock0)].
Proof.
  split; [reflexivity|]. split; [reflexivity|]. split; [reflexivity|].
  exact (proj1 (token_content_is_concatenation [["Hi"]; [" there"]]
                  app_streaming [userMessage clock0 "Hello"]
                  (assistantMessage clock0)
                  eq_refl eq_refl eq_refl eq_refl eq_refl (or_introl eq_refl))).
Defined.

(** The first scenario of the spec: "Hello" sent on an empty conversation,
    then the frames [token "Hi"], [token " there"], [complete]. *)
Example scenario_hello_completed :
  messages app_streaming =
    [userMessage clock0 "Hello"; assistantMessage clock0] /\
  messages app_completed =
    [userMessage clock0 "Hello";
     set_isStreaming false (set_content "Hi there" (assistantMessage clock0))].
Proof. split; reflexivity. Qed.

(** * The send path *)

Lemma send_not_open (data : Request.t) (c : Conn) :
  UseWebSocket.isConnected c = false -> UseWebSocket.send data c = (false, c).
Proof. intros H. unfold UseWebSocket.send. by rewrite H. Qed.

Lemma send_open (data : Request.t) (c : Conn) :
  UseWebSocket.isConnected c = true -> fst (UseWebSocket.send data c) = true.
Proof.
  intros H. unfold UseWebSocket.send. rewrite H.
  unfold UseWebSocket.isConnected in H. by destruct (wsRef c).
Qed.

Lemma start_turn_sent clock conversationId content (s : App) (c : Conn) :
  rendered s -> UseWebSocket.isConnected c = true ->
  fst (start_turn clock conversationId content s c) =
  mkApp (messages s ++ [userMessage clock content; assistantMessage clock]) []
        true (status s) None (isConnected s) EmptyString
        (loadConversations_calls s).
Proof.
  intros Hp Ho. unfold start_turn, sendMessageToServer, sendMessageToServer_of.
  pose proof (send_open (Request.mk conversationId content
                           (history_of (messages s))) c Ho) as Hs.
  simpl in *. destruct (UseWebSocket.send _ c) as [sent c'].
  simpl in Hs. subst sent.
  unfold render; simpl. rewrite Hp; simpl.
  by rewrite <- app_assoc.
Qed.

Lemma start_turn_failed clock conversationId content (s : App) (c : Conn) :
  rendered s -> UseWebSocket.isConnected c = false ->
  start_turn clock conversationId content s c =
  (mkApp (messages s ++ [userMessage clock content]) []
         false (status s) (Some "Not connected to server") (isConnected s)
         EmptyString (loadConversations_calls s), c).
Proof.
  intros Hp Ho. unfold start_turn, sendMessageToServer, sendMessageToServer_of. simpl.
  rewrite send_not_open by assumption.
  unfold render; simpl. rewrite Hp; simpl.
  by rewrite slice_0_m1_snoc.
Qed.

Lemma count_streaming_app (xs ys : list Message) :
  count_streaming (xs ++ ys) = count_streaming xs + count_streaming ys.
Proof. unfold count_streaming. by rewrite filter_app, length_app. Qed.

(** C2, as the spec words it, fails: on the spec's own scenario the list is
    empty before the turn and holds the user's message after the error. *)
Lemma error_after_turn_length_cex :
  messages app_online = [] /\
  messages (deliver_all [[ws_token "Par"]; [ws_error "rate limited"]]
              app_streaming) = [userMessage clock0 "Hello"] /\
  length (messages (deliver_all [[ws_token "Par"]; [ws_error "rate limited"]]
                      app_streaming)) <> length (messages app_online).
Proof. split; [reflexivity|]. split; [reflexivity|]. simpl. lia. Qed.

(** C2, amended.  After a turn was started on an open channel, an error
    frame, with or without token frames before it (in any batching),
    removes the assistant placeholder and nothing else: the list is the one
    from before the turn followed by the user's message, so it is one
    longer than before the turn, and the error text is the frame's. *)
Theorem error_removes_placeholder clock conversationId content
    (s : App) (c : Conn) (batches : list (list string)) (text : string) :
  rendered s -> UseWebSocket.isConnected c = true ->
  let started := fst (start_turn clock conversationId content s c) in
  let s' := dispatch (ws_error text)
              (deliver_all (map (map ws_token) batches) started) in
  messages s' = messages s ++ [userMessage clock content] /\
  length (messages s') = length (messages s) + 1 /\
  count_streaming (messages s') = count_streaming (messages s) /\
  error s' = Some text /\ isLoading s' = false.
Proof.
  intros Hp Ho started s'.
  assert (E : messages s' = messages s ++ [userMessage clock content]).
  { unfold s', started. rewrite start_turn_sent by assumption.
    erewrite (deliver_all_tokens batches _
                (messages s ++ [userMessage clock content]));
      [| reflexivity | simpl; by rewrite <- app_assoc
       | reflexivity | reflexivity].
    unfold dispatch, deliver, render; simpl.
    unfold error_updater. rewrite pop_if_streaming_snoc.
    by destruct (concat batches). }
  split; [exact E|]. split; [rewrite E, length_app; simpl; lia|].
  split; [rewrite E, count_streaming_app; unfold count_streaming; simpl; lia|].
  unfold s', started. rewrite start_turn_sent by assumption.
  erewrite (deliver_all_tokens batches _
              (messages s ++ [userMessage clock content]));
    [| reflexivity | simpl; by rewrite <- app_assoc
     | reflexivity | reflexivity].
  split; reflexivity.
Qed.

Lemma error_removes_placeholder_witness :
  rendered app_online /\ UseWebSocket.isConnected conn_open = true /\
  messages (dispatch (ws_error "rate limited")
              (deliver_all (map (map ws_token) [["Par"]]) app_streaming)) =
  messages app_online ++ [userMessage clock0 "Hello"].
Proof.
  split; [reflexivity|]. split; [reflexivity|].
  exact (proj1 (error_removes_placeholder clock0 "c1" "Hello" app_online
                  conn_open [["Par"]] "rate limited" eq_refl eq_refl)).
Defined.

(** C3, as the spec words it, fails: on an empty list a failed send leaves
    the user's message in the store. *)
Lemma send_failure_on_empty_cex :
  messages app_offline = [] /\
  UseWebSocket.isConnected conn_closed = false /\
  messages (fst (start_turn clock0 "c1" "Hello" app_offline conn_closed)) =
    [userMessage clock0 "Hello"] /\
  messages (fst (start_turn clock0 "c1" "Hello" app_offline conn_closed)) <> [].
Proof.
  split; [reflexivity|]. split; [reflexivity|]. split; [reflexivity|].
  discriminate.
Qed.

(** C3, amended.  When [send] returns false right after the optimistic
    append of a turn on an empty list, the assistant placeholder is removed
    and the user's message stays: the store holds exactly the user's
    message, and the error banner shows "Not connected to server". *)
Theorem send_failure_on_empty clock conversationId content
    (s : App) (c : Conn) :
  rendered s -> messages s = [] -> UseWebSocket.isConnected c = false ->
  let s' := fst (start_turn clock conversationId content s c) in
  messages s' = [userMessage clock content] /\
  error s' = Some "Not connected to server".
Proof.
  intros Hp Hm Ho s'. unfold s'.
  rewrite start_turn_failed by assumption. simpl. by rewrite Hm.
Qed.

Lemma send_failure_on_empty_witness :
  rendered app_offline /\ messages app_offline = [] /\
  UseWebSocket.isConnected conn_closed = false /\
  messages (fst (start_turn clock0 "c1" "Hello" app_offline conn_closed)) =
    [userMessage clock0 "Hello"] /\
  error (fst (start_turn clock0 "c1" "Hello" app_offline conn_closed)) =
    Some "Not connected to server".
Proof.
  split; [reflexivity|]. split; [reflexivity|]. split; [reflexivity|].
  exact (send_failure_on_empty clock0 "c1" "Hello" app_offline conn_closed
           eq_refl eq_refl eq_refl).
Defined.

(** C5, as the spec words it, fails in its last clause: when the channel
    dropped under a streaming turn and the user sends again, the failed
    send leaves the earlier turn's streaming-flagged message in the list. *)
Lemma send_failure_leaves_earlier_streaming_cex :
  UseWebSocket.isConnected conn_dropped = false /\
  messages app_second_send_failed =
    [userMessage clock0 "Hello"; assistantMessage clock0;
     userMessage clock1 "Hello"] /\
  count_streaming (messages app_second_send_failed) <> 0.
Proof. split; [reflexivity|]. split; [reflexivity|]. discriminate. Qed.

(** C5, amended.  Whenever [send] returns failure after the optimistic
    append of a turn, the assistant placeholder is removed and the user's
    message is left in place, the error "Not connected to server" is
    surfaced, the loading state returns to idle, nothing goes out on the
    channel, and the failed turn adds no streaming-flagged message: the
    list carries as many as it did before the turn, hence none when it
    carried none. *)
Theorem send_failure_reverts_placeholder clock conversationId content
    (s : App) (c : Conn) :
  rendered s -> UseWebSocket.isConnected c = false ->
  let s' := fst (start_turn clock conversationId content s c) in
  messages s' = messages s ++ [userMessage clock content] /\
  error s' = Some "Not connected to server" /\
  isLoading s' = false /\
  snd (start_turn clock conversationId content s c) = c /\
  count_streaming (messages s') = count_streaming (messages s).
Proof.
  intros Hp Ho s'. unfold s'.
  rewrite start_turn_failed by assumption. simpl.
  repeat split. rewrite count_streaming_app.
  unfold count_streaming at 2. simpl. lia.
Qed.

Lemma send_failure_reverts_placeholder_witness :
  rendered app_offline /\ UseWebSocket.isConnected conn_closed = false /\
  messages (fst (start_turn clock0 "c1" "Hello" app_offline conn_closed)) =
    messages app_offline ++ [userMessage clock0 "Hello"] /\
  count_streaming
    (messages (fst (start_turn clock0 "c1" "Hello" app_offline conn_closed)))
  = count_streaming (messages app_offline).
Proof.
  split; [reflexivity|]. split; [reflexivity|].
  pose proof (send_failure_reverts_placeholder clock0 "c1" "Hello"
                app_offline conn_closed eq_refl eq_refl)
    as (Hm & _ & _ & _ & Hc).
  exact (conj Hm Hc).
Defined.

(** * Terminal frames *)

Lemma count_streaming_single (m : Message) :
  count_streaming [m] = if truthy (isStreaming m) then 1 else 0.
Proof.
  unfold count_streaming. rewrite filter_cons, filter_nil.
  destruct (truthy (isStreaming m)); by case_decide.
Qed.

Lemma dispatch_complete_messages (s : App) :
  rendered s ->
  messages (dispatch ws_complete s) = complete_updater EmptyString (messages s).
Proof. intros Hp. unfold dispatch, deliver, render; simpl. by rewrite Hp. Qed.

(** C4, as the spec words it, fails: with a streaming message that is not
    the last element (a second turn was sent while the first streams),
    [complete] clears the flag of the last placeholder only. *)
Lemma complete_leaves_streaming_cex :
  rendered app_two_turns /\
  messages (dispatch ws_complete app_two_turns) =
    [userMessage clock0 "Hello"; assistantMessage clock0;
     userMessage clock1 "Hello";
     set_isStreaming false (assistantMessage clock1)] /\
  count_streaming (messages (dispatch ws_complete app_two_turns)) <> 0.
Proof. split; [reflexivity|]. split; [reflexivity|]. discriminate. Qed.

(** C4, amended.  A complete frame clears the streaming flag of the last
    element when that element is an assistant message, and changes no other
    element; it leaves zero messages with the flag set exactly when, before
    the frame, no earlier element carried the flag and the last element was
    an assistant message or was not flagged. *)
Theorem complete_clears_last_assistant (s : App) :
  rendered s ->
  let s' := dispatch ws_complete s in
  (messages s = [] -> messages s' = []) /\
  (forall front m, messages s = front ++ [m] ->
     messages s' =
       front ++ [if is_assistant m then set_isStreaming false m else m] /\
     (count_streaming (messages s') = 0 <->
      count_streaming front = 0 /\
      (role m = assistant \/ truthy (isStreaming m) = false))).
Proof.
  intros Hp s'. unfold s'. rewrite dispatch_complete_messages by assumption.
  unfold complete_updater. split.
  - intros ->. reflexivity.
  - intros front m ->. rewrite mutate_last_snoc. split; [reflexivity|].
    rewrite count_streaming_app, count_streaming_single.
    unfold is_assistant. case_bool_decide as Hr; simpl.
    + split; [intros H; split; [lia | by left] | intros [H _]; lia].
    + destruct (truthy (isStreaming m)); split.
      * intros H; lia.
      * intros [_ [H|H]]; [done | discriminate].
      * intros H; split; [lia | by right].
      * intros [H _]; lia.
Qed.

Lemma complete_clears_last_assistant_witness :
  rendered app_streaming /\
  messages (dispatch ws_complete app_streaming) =
    [userMessage clock0 "Hello"] ++
    [set_isStreaming false (assistantMessage clock0)].
Proof.
  split; [reflexivity|].
  exact (proj1 (proj2 (complete_clears_last_assistant app_streaming eq_refl)
                  [userMessage clock0 "Hello"] (assistantMessage clock0)
                  eq_refl)).
Defined.

Lemma dispatch_error (text : string) (s : App) :
  rendered s ->
  dispatch (ws_error text) s =
  mkApp (pop_if_streaming (messages s)) [] false EmptyString (Some text)
        (isConnected s) EmptyString (loadConversations_calls s).
Proof. intros Hp. unfold dispatch, deliver, render; simpl. by rewrite Hp. Qed.

(** C9.  An error frame that arrives when the list is empty or its last
    element is not marked streaming sets the visible error text, resets the
    loading state, the status and the accumulator, and leaves the message
    list as it was. *)
Theorem error_without_streaming_last (text : string) (s : App) :
  rendered s ->
  messages s = [] \/
    (exists m, last (messages s) = Some m /\ truthy (isStreaming m) = false) ->
  dispatch (ws_error text) s =
  mkApp (messages s) [] false EmptyString (Some text)
        (isConnected s) EmptyString (loadConversations_calls s).
Proof.
  intros Hp H. rewrite dispatch_error by assumption. f_equal.
  destruct H as [-> | (m & Hl & Hs)]; [reflexivity|].
  unfold pop_if_streaming. by rewrite Hl, Hs.
Qed.

Lemma error_without_streaming_last_witness :
  rendered app_completed /\
  (exists m, last (messages app_completed) = Some m /\
             truthy (isStreaming m) = false) /\
  messages (dispatch (ws_error "stream closed") app_completed) =
    messages app_completed.
Proof.
  split; [reflexivity|].
  assert (H : exists m, last (messages app_completed) = Some m /\
                        truthy (isStreaming m) = false).
  { eexists. split; reflexivity. }
  split; [exact H|].
  exact (f_equal messages
           (error_without_streaming_last "stream closed" app_completed
              eq_refl (or_intror H))).
Defined.

(** * Which element a frame touches *)

Lemma take_front_snoc (front : list Message) (m m' : Message) :
  take (length (front ++ [m]) - 1) (front ++ [m']) = front.
Proof.
  rewrite length_app; simpl.
  replace (length front + 1 - 1) with (length front) by lia.
  apply take_app_length.
Qed.

Lemma take_front_only (front : list Message) (m : Message) :
  take (length (front ++ [m]) - 1) front = front.
Proof. apply take_ge. rewrite length_app; simpl. lia. Qed.

Lemma dispatch_messages (ev : WebSocketMessage) (s : App) :
  rendered s ->
  messages (dispatch ev s) =
  match ev with
  | ws_status _ => messages s
  | ws_token text => token_updater (currentMessageRef s +:+ text) (messages s)
  | ws_sources text => sources_updater text (currentMessageRef s) (messages s)
  | ws_debug info => debug_updater info (currentMessageRef s) (messages s)
  | ws_complete => complete_updater EmptyString (messages s)
  | ws_error _ => error_updater EmptyString (messages s)
  end.
Proof.
  intros Hp. unfold dispatch, deliver, render.
  destruct ev; simpl; by rewrite Hp.
Qed.

(** Which element a frame may touch.  Every frame leaves all elements but
    the last as they are.  A token frame changes the last element only when
    it is an assistant message still marked streaming; a sources, debug or
    complete frame changes it only when it is an assistant message; an error
    frame removes it only when it is marked streaming; a status frame
    changes nothing.  When the streaming flag of the last element is not
    set, a token, error or status frame leaves the list as it is and a debug
    or complete frame leaves every content as it is: of the five cases only
    the sources case can rewrite the content of such a message. *)
Lemma frames_touch_only_last (ev : WebSocketMessage) (s : App) :
  rendered s ->
  let ms := messages s in
  let ms' := messages (dispatch ev s) in
  take (length ms - 1) ms' = take (length ms - 1) ms /\
  (ms' <> ms ->
   exists m, last ms = Some m /\
     match ev with
     | ws_token _ => role m = assistant /\ isStreaming m = Some true
     | ws_sources _ | ws_debug _ | ws_complete => role m = assistant
     | ws_error _ => isStreaming m = Some true
     | ws_status _ => False
     end) /\
  (forall m, last ms = Some m -> truthy (isStreaming m) = false ->
     match ev with
     | ws_token _ | ws_error _ | ws_status _ => ms' = ms
     | ws_debug _ | ws_complete => content <$> ms' = content <$> ms
     | ws_sources _ => role m <> assistant -> ms' = ms
     end).
Proof.
  intros Hp ms ms'. unfold ms', ms. rewrite dispatch_messages by assumption.
  destruct (snoc_cases (messages s)) as [E | (front & m & E)]; rewrite E.
  - split; [by destruct ev|]. split; [by destruct ev|]. by destruct ev.
  - assert (Hstr : truthy (isStreaming m) = true -> isStreaming m = Some true).
    { by destruct (isStreaming m) as [[]|]. }
    unfold token_updater, sources_updater, debug_updater, complete_updater,
      error_updater.
    split; [|split].
    + destruct ev; rewrite ?mutate_last_snoc, ?pop_if_streaming_snoc;
        rewrite ?take_front_snoc; try reflexivity.
      destruct (truthy (isStreaming m));
        rewrite ?take_front_snoc, ?take_front_only; reflexivity.
    + intros Hne. exists m. rewrite last_snoc. split; [reflexivity|].
      destruct ev; rewrite ?mutate_last_snoc, ?pop_if_streaming_snoc in Hne;
        unfold is_assistant in Hne; try done;
        try (case_bool_decide; [done|]; simpl in Hne; done).
      * case_bool_decide; [|simpl in Hne; done].
        destruct (truthy (isStreaming m)) eqn:Et; [|simpl in Hne; done].
        auto.
      * destruct (truthy (isStreaming m)) eqn:Et; [auto | done].
    + intros m0 Hl Ht. rewrite last_snoc in Hl. injection Hl as ->.
      destruct ev; rewrite ?mutate_last_snoc, ?pop_if_streaming_snoc;
        rewrite ?Ht, ?andb_false_r; try reflexivity.
      * intros Hr. unfold is_assistant. by rewrite bool_decide_false.
      * rewrite !fmap_app. f_equal. simpl. by destruct (is_assistant m0).
      * rewrite !fmap_app. f_equal. simpl. by destruct (is_assistant m0).
Qed.

Lemma frames_touch_only_last_witness :
  rendered app_completed /\
  take (length (messages app_completed) - 1)
       (messages (dispatch (ws_sources " [1] Setup guide") app_completed)) =
  take (length (messages app_completed) - 1) (messages app_completed).
Proof.
  split; [reflexivity|].
  exact (proj1 (frames_touch_only_last (ws_sources " [1] Setup guide")
                  app_completed eq_refl)).
Defined.

(** C6, the code at the failing input.  The sources case of the handler
    tests the role of the last message and not its streaming flag, unlike
    the token case beside it.  So a sources frame rewrites the content of an
    assistant message whose streaming flag is no longer set, where the claim
    has the content immutable: after the first turn completed with "Hi
    there" the frame turns the content into "Hi there [1] Setup guide",
    with the flag still cleared, while a token frame at the same point
    changes nothing; and when the user has opened another conversation
    while the turn streamed, the frame of the abandoned turn is appended to
    the last assistant message of the conversation just loaded, which never
    streamed. *)
Theorem sources_frame_rewrites_completed_message :
  (last (messages app_completed) =
     Some (set_isStreaming false
             (set_content "Hi there" (assistantMessage clock0))) /\
   last (messages (dispatch (ws_sources " [1] Setup guide") app_completed)) =
     Some (set_sources " [1] Setup guide"
             (set_content "Hi there [1] Setup guide"
                (set_isStreaming false
                   (set_content "Hi there" (assistantMessage clock0))))) /\
   messages (dispatch (ws_token " more") app_completed) =
     messages app_completed) /\
  (rendered (app session_switched) /\
   role <$> last (messages (app session_switched)) = Some assistant /\
   isStreaming <$> last (messages (app session_switched)) = Some None /\
   content <$> last (messages (app session_switched)) =
     Some "In the Ops space." /\
   content <$> last (messages (dispatch (ws_sources " [1] Setup guide")
                                 (app session_switched))) =
     Some "In the Ops space. [1] Setup guide").
Proof.
  split.
  - split; [reflexivity|]. split; reflexivity.
  - split; [reflexivity|]. split; [reflexivity|]. split; [reflexivity|].
    split; reflexivity.
Qed.

(** * The connection hook *)

(** The sample connections, evaluated: the open channel, the closed one
    with its reconnect timer of 3000 ms, and the one that dropped with the
    request of the first turn already sent. *)
Example conn_open_value :
  conn_open =
  mkConn [mkWebSocket "wss://chat.example.org/ws/chat" OPEN []] (Some 0)
         None false [] 1.
Proof. reflexivity. Qed.

Example conn_closed_value :
  conn_closed =
  mkConn [mkWebSocket "wss://chat.example.org/ws/chat" CLOSED []] None
         (Some 1) false [(1, 3000)] 2.
Proof. reflexivity. Qed.

Example conn_dropped_value :
  conn_dropped =
  mkConn [mkWebSocket "wss://chat.example.org/ws/chat" CLOSED
            [Request.mk "c1" "Hello" []]] None
         (Some 1) false [(1, 3000)] 2.
Proof. reflexivity. Qed.

(** The reconnect timer fires: [connect] opens a second channel. *)
Example reconnect_after_close :
  sockets (UseWebSocket.timer_fires loc0 1 conn_closed) =
  [mkWebSocket "wss://chat.example.org/ws/chat" CLOSED [];
   mkWebSocket "wss://chat.example.org/ws/chat" CONNECTING []].
Proof. reflexivity. Qed.

Lemma endpoint_secure (loc : Location) :
  protocol loc = "https:" ->
  UseWebSocket.endpoint loc = "wss:" +:+ "//" +:+ host loc +:+ "/ws/chat".
Proof. intros H. unfold UseWebSocket.endpoint. by rewrite H. Qed.

Lemma endpoint_insecure (loc : Location) :
  protocol loc <> "https:" ->
  UseWebSocket.endpoint loc = "ws:" +:+ "//" +:+ host loc +:+ "/ws/chat".
Proof.
  intros H. unfold UseWebSocket.endpoint.
  destruct (String.eqb_spec (protocol loc) "https:"); [done | reflexivity].
Qed.

(** C7.  [connect] is idempotent.  While the hook is connecting (its guard
    [isConnectingRef] is set) or its channel is open, the call changes
    nothing and creates no channel;
    otherwise it creates exactly one new channel, to [/ws/chat] on the
    page's host, with scheme [wss:] exactly when the page's protocol is
    [https:] and [ws:] otherwise, and marks the hook as connecting. *)
Theorem connect_idempotent (loc : Location) (c : Conn) :
  (isConnectingRef c = true \/ UseWebSocket.isConnected c = true ->
   UseWebSocket.connect loc c = c) /\
  (isConnectingRef c = false -> UseWebSocket.isConnected c = false ->
   UseWebSocket.connect loc c =
   mkConn (sockets c ++ [mkWebSocket (UseWebSocket.endpoint loc) CONNECTING []])
          (Some (length (sockets c))) (reconnectTimeoutRef c) true
          (timers c) (next_timer c)) /\
  UseWebSocket.connect loc (UseWebSocket.connect loc c) =
    UseWebSocket.connect loc c /\
  (protocol loc = "https:" ->
   UseWebSocket.endpoint loc = "wss:" +:+ "//" +:+ host loc +:+ "/ws/chat") /\
  (protocol loc <> "https:" ->
   UseWebSocket.endpoint loc = "ws:" +:+ "//" +:+ host loc +:+ "/ws/chat").
Proof.
  split; [|split; [|split; [|split]]].
  - unfold UseWebSocket.connect. intros [-> | ->]; [reflexivity|].
    by rewrite orb_true_r.
  - unfold UseWebSocket.connect. intros -> ->. reflexivity.
  - destruct (isConnectingRef c || UseWebSocket.isConnected c) eqn:G.
    + assert (E : UseWebSocket.connect loc c = c)
        by (unfold UseWebSocket.connect; by rewrite G).
      by rewrite !E.
    + assert (E : isConnectingRef (UseWebSocket.connect loc c) = true)
        by (unfold UseWebSocket.connect; by rewrite G).
      unfold UseWebSocket.connect at 1. by rewrite E.
  - apply endpoint_secure.
  - apply endpoint_insecure.
Qed.

Lemma connect_idempotent_witness :
  UseWebSocket.isConnected conn_open = true /\
  UseWebSocket.connect loc0 conn_open = conn_open /\
  isConnectingRef conn_init = false /\
  UseWebSocket.isConnected conn_init = false /\
  sockets (UseWebSocket.connect loc0 conn_init) =
    [mkWebSocket "wss://chat.example.org/ws/chat" CONNECTING []].
Proof.
  split; [reflexivity|].
  split;
    [exact (proj1 (connect_idempotent loc0 conn_open) (or_intror eq_refl))|].
  split; [reflexivity|]. split; [reflexivity|].
  exact (f_equal sockets
           (proj1 (proj2 (connect_idempotent loc0 conn_init)) eq_refl eq_refl)).
Defined.

(** The handler of inbound frames never lets an exception out, whatever the
    frame and whatever the callback does. *)
Lemma ws_onmessage_never_throws {State : Type}
    (JSON_parse : string -> UseWebSocket.exn + JsValue)
    (options : @UseWebSocket.Options State) (data : string)
    (w : @UseWebSocket.World State) :
  snd (UseWebSocket.ws_onmessage JSON_parse options data w) = inr tt.
Proof.
  unfold UseWebSocket.ws_onmessage, UseWebSocket.try_catch, UseWebSocket.bind,
    UseWebSocket.parse, UseWebSocket.call_onMessage.
  destruct (JSON_parse data) as [err|v]; [reflexivity|].
  destruct (UseWebSocket.onMessage options v (UseWebSocket.st w))
    as [st' [e|[]]]; reflexivity.
Qed.

(** C8.  A frame whose payload fails to parse is logged and dropped: the
    handler completes normally, the message callback is not called, and the
    caller's state and the connection are as before; the one effect is the
    line on the error console. *)
Theorem malformed_frame_dropped {State : Type}
    (JSON_parse : string -> UseWebSocket.exn + JsValue)
    (options : @UseWebSocket.Options State) (data : string)
    (err : UseWebSocket.exn) (w : @UseWebSocket.World State) :
  JSON_parse data = inl err ->
  UseWebSocket.ws_onmessage JSON_parse options data w =
  (UseWebSocket.mkWorld (UseWebSocket.st w) (UseWebSocket.conn w)
     (UseWebSocket.console w ++
        ["Failed to parse WebSocket message:" +:+ " " +:+ err])
     (UseWebSocket.onMessage_calls w),
   inr tt).
Proof.
  intros H.
  unfold UseWebSocket.ws_onmessage, UseWebSocket.try_catch, UseWebSocket.bind,
    UseWebSocket.parse.
  rewrite H. reflexivity.
Qed.

Lemma malformed_frame_dropped_witness :
  JSON_parse0 "<html>502 Bad Gateway</html>" =
    inl "SyntaxError: Unexpected token" /\
  UseWebSocket.ws_onmessage JSON_parse0 App_options
    "<html>502 Bad Gateway</html>"
    (UseWebSocket.mkWorld app_streaming conn_streaming [] []) =
  (UseWebSocket.mkWorld app_streaming conn_streaming
     ["Failed to parse WebSocket message: SyntaxError: Unexpected token"] [],
   inr tt).
Proof.
  split; [reflexivity|].
  exact (malformed_frame_dropped JSON_parse0 App_options
           "<html>502 Bad Gateway</html>" "SyntaxError: Unexpected token"
           (UseWebSocket.mkWorld app_streaming conn_streaming [] []) eq_refl).
Defined.

(** * The outbound payload *)

Lemma send_on_open (data : Request.t) (c : Conn) (i : nat) (ws : WebSocket) :
  wsRef c = Some i -> sockets c !! i = Some ws -> readyState ws = OPEN ->
  UseWebSocket.isConnected c = true /\
  sockets (snd (UseWebSocket.send data c)) !! i =
    Some (mkWebSocket (url ws) OPEN (sent ws ++ [data])).
Proof.
  intros Hi Hws Hr.
  assert (Ho : UseWebSocket.isConnected c = true).
  { unfold UseWebSocket.isConnected. rewrite Hi, Hws.
    by rewrite bool_decide_true. }
  split; [exact Ho|].
  unfold UseWebSocket.send. rewrite Ho, Hi. simpl.
  rewrite list_lookup_alter_eq, Hws. simpl. by rewrite Hr.
Qed.


(** The same through the [await] of [handleSendMessage]: the conversation
    loaded in the meantime is on screen and the turn is appended behind its
    two messages, but the history is the empty list of the render that
    created the handler. *)
Example history_stale_after_await :
  history_of (messages (app session_loaded_meanwhile)) =
    [(user, "Where is the runbook?"); (assistant, "In the Ops space.")] /\
  sent <$> sockets (snd send_after_await) !! 0 =
    Some [Request.mk "c3" "Hello" []] /\
  messages (render (fst send_after_await)) =
    messages (app session_loaded_meanwhile) ++
    [userMessage clock0 "Hello"; assistantMessage clock0].
Proof. split; [reflexivity|]. split; reflexivity. Qed.



(** * Further properties of the connection hook *)

Lemma isConnected_after_send (data : Request.t) (c : Conn) :
  UseWebSocket.isConnected (snd (UseWebSocket.send data c)) =
  UseWebSocket.isConnected c.
Proof.
  destruct (UseWebSocket.isConnected c) eqn:Ho.
  - unfold UseWebSocket.send. rewrite Ho.
    unfold UseWebSocket.isConnected in *.
    destruct (wsRef c) as [i|] eqn:Hi; [|done]. simpl.
    rewrite list_lookup_alter_eq.
    destruct (sockets c !! i) as [ws|]; simpl; done.
  - by rewrite send_not_open.
Qed.

(** X1.  [send] never queues: it reports success exactly when the hook's
    channel is open, a failed send changes nothing at all, and a send
    leaves the channel as open or closed as it was. *)
Theorem send_never_queues (data : Request.t) (c : Conn) :
  fst (UseWebSocket.send data c) = UseWebSocket.isConnected c /\
  (UseWebSocket.isConnected c = false -> snd (UseWebSocket.send data c) = c) /\
  UseWebSocket.isConnected (snd (UseWebSocket.send data c)) =
    UseWebSocket.isConnected c /\
  length (sockets (snd (UseWebSocket.send data c))) = length (sockets c).
Proof.
  split; [|split; [|split]].
  - destruct (UseWebSocket.isConnected c) eqn:Ho.
    + by apply send_open.
    + by rewrite send_not_open.
  - intros Ho. by rewrite send_not_open.
  - apply isConnected_after_send.
  - unfold UseWebSocket.send.
    destruct (UseWebSocket.isConnected c); [|done].
    destruct (wsRef c); [|done]. simpl. apply length_alter.
Qed.

Lemma send_never_queues_witness :
  UseWebSocket.isConnected conn_closed = false /\
  snd (UseWebSocket.send (Request.mk "c1" "Hello" []) conn_closed) =
    conn_closed.
Proof.
  split; [reflexivity|].
  exact (proj1 (proj2 (send_never_queues (Request.mk "c1" "Hello" [])
                         conn_closed)) eq_refl).
Defined.

Lemma send_other_sockets (data : Request.t) (c : Conn) (i j : nat) :
  wsRef c = Some i -> j <> i ->
  sockets (snd (UseWebSocket.send data c)) !! j = sockets c !! j.
Proof.
  intros Hi Hj. unfold UseWebSocket.send.
  destruct (UseWebSocket.isConnected c); [|done].
  rewrite Hi. simpl. by rewrite list_lookup_alter_ne.
Qed.

(** X2.  Frames go out on the open channel in call order: after two sends
    the channel's outbox is the old one followed by the two payloads, both
    sends report success, and no other channel is touched. *)
Theorem sends_go_out_in_order (d1 d2 : Request.t) (c : Conn) (i : nat)
    (ws : WebSocket) :
  wsRef c = Some i -> sockets c !! i = Some ws -> readyState ws = OPEN ->
  let c1 := snd (UseWebSocket.send d1 c) in
  let c2 := snd (UseWebSocket.send d2 c1) in
  fst (UseWebSocket.send d1 c) = true /\
  fst (UseWebSocket.send d2 c1) = true /\
  sockets c2 !! i = Some (mkWebSocket (url ws) OPEN (sent ws ++ [d1; d2])) /\
  (forall j, j <> i -> sockets c2 !! j = sockets c !! j).
Proof.
  intros Hi Hws Hr c1 c2.
  destruct (send_on_open d1 c i ws Hi Hws Hr) as [Ho1 Hs1].
  assert (Hi1 : wsRef c1 = Some i).
  { unfold c1, UseWebSocket.send. by rewrite Ho1, Hi. }
  destruct (send_on_open d2 c1 i _ Hi1 Hs1 eq_refl) as [Ho2 Hs2].
  split; [by apply send_open|]. split; [by apply send_open|].
  split.
  - fold c2 in Hs2. rewrite Hs2. simpl. by rewrite <- app_assoc.
  - intros j Hj. unfold c2.
    rewrite (send_other_sockets d2 c1 i j Hi1 Hj).
    apply (send_other_sockets d1 c i j Hi Hj).
Qed.

Lemma sends_go_out_in_order_witness :
  wsRef conn_open = Some 0 /\
  sockets (snd (UseWebSocket.send (Request.mk "c1" "b" [])
                  (snd (UseWebSocket.send (Request.mk "c1" "a" []) conn_open))))
    !! 0 =
  Some (mkWebSocket "wss://chat.example.org/ws/chat" OPEN
          [Request.mk "c1" "a" []; Request.mk "c1" "b" []]).
Proof.
  split; [reflexivity|].
  exact (proj1 (proj2 (proj2
           (sends_go_out_in_order (Request.mk "c1" "a" [])
              (Request.mk "c1" "b" []) conn_open 0
              (mkWebSocket "wss://chat.example.org/ws/chat" OPEN [])
              eq_refl eq_refl eq_refl)))).
Defined.

Lemma not_elem_of_filtered_handles (t : nat) (ts : list (nat * nat)) :
  ~ elem_of t (fst <$> filter (fun e => e.1 <> t) ts).
Proof.
  intros H. apply list_elem_of_fmap in H as ([t' d] & -> & H).
  apply list_elem_of_filter in H as [H _]. by apply H.
Qed.

(** X3.  [disconnect] cancels the pending reconnect and drops the channel:
    when the cancelled timer's moment comes nothing happens, the hook
    reports not connected, and a send fails. *)
Theorem disconnect_cancels_reconnect (loc : Location) (c : Conn) (t : nat)
    (data : Request.t) :
  reconnectTimeoutRef c = Some t -> t <> 0 ->
  UseWebSocket.timer_fires loc t (UseWebSocket.disconnect c) =
    UseWebSocket.disconnect c /\
  reconnectTimeoutRef (UseWebSocket.disconnect c) = None /\
  UseWebSocket.isConnected (UseWebSocket.disconnect c) = false /\
  UseWebSocket.send data (UseWebSocket.disconnect c) =
    (false, UseWebSocket.disconnect c).
Proof.
  intros Ht H0.
  assert (Hc : UseWebSocket.isConnected (UseWebSocket.disconnect c) = false)
    by reflexivity.
  split; [|split; [reflexivity|split; [exact Hc|by apply send_not_open]]].
  unfold UseWebSocket.timer_fires.
  rewrite bool_decide_false; [reflexivity|].
  unfold UseWebSocket.disconnect. rewrite Ht. simpl.
  destruct t as [|t]; [done|]. apply not_elem_of_filtered_handles.
Qed.

Lemma disconnect_cancels_reconnect_witness :
  reconnectTimeoutRef conn_closed = Some 1 /\
  UseWebSocket.timer_fires loc0 1 (UseWebSocket.disconnect conn_closed) =
    UseWebSocket.disconnect conn_closed.
Proof.
  split; [reflexivity|].
  exact (proj1 (disconnect_cancels_reconnect loc0 conn_closed 1
                  (Request.mk "c1" "Hello" []) eq_refl
                  ltac:(discriminate))).
Defined.

Lemma timer_fires_armed (loc : Location) (c : Conn) (t d : nat) :
  wsRef c = None -> isConnectingRef c = false ->
  elem_of (t, d) (timers c) ->
  UseWebSocket.timer_fires loc t c =
  mkConn (sockets c ++ [mkWebSocket (UseWebSocket.endpoint loc) CONNECTING []])
         (Some (length (sockets c))) (reconnectTimeoutRef c) true
         (filter (fun e => e.1 <> t) (timers c)) (next_timer c).
Proof.
  intros Hw Hg Hin. unfold UseWebSocket.timer_fires.
  rewrite bool_decide_true.
  - unfold UseWebSocket.connect, UseWebSocket.isConnected. simpl.
    by rewrite Hw, Hg.
  - apply list_elem_of_fmap. by exists (t, d).
Qed.

(** X4.  Every [close] event schedules a reconnect, whatever the state of
    the hook (also after [disconnect]): the hook forgets its channel, arms
    one timer of 3000 ms and keeps its handle; when that timer fires,
    [connect] opens exactly one new channel to the endpoint and the hook is
    connecting. *)
Theorem close_schedules_reconnect {State : Type}
    (options : @UseWebSocket.Options State) (loc : Location)
    (w : @UseWebSocket.World State) :
  let c := UseWebSocket.conn w in
  let c' := UseWebSocket.conn (UseWebSocket.ws_onclose options w) in
  let c'' := UseWebSocket.timer_fires loc (next_timer c) c' in
  UseWebSocket.isConnected c' = false /\
  reconnectTimeoutRef c' = Some (next_timer c) /\
  timers c' = timers c ++ [(next_timer c, 3000)] /\
  sockets c'' =
    sockets c ++ [mkWebSocket (UseWebSocket.endpoint loc) CONNECTING []] /\
  wsRef c'' = Some (length (sockets c)) /\
  isConnectingRef c'' = true.
Proof.
  intros c c' c''.
  split; [reflexivity|]. split; [reflexivity|]. split; [reflexivity|].
  unfold c''.
  rewrite (timer_fires_armed loc c' (next_timer c) 3000);
    [by repeat split | reflexivity | reflexivity |].
  unfold c'. simpl. apply elem_of_app. right. by apply list_elem_of_singleton.
Qed.

Lemma Forall_kept_by_filter {A : Type} (P : A -> Prop) (Q : A -> Prop)
    `{!forall x, Decision (Q x)} (l : list A) :
  Forall P l -> Forall P (filter Q l).
Proof.
  rewrite !Forall_forall. intros HP x Hx.
  apply list_elem_of_filter in Hx as [_ Hx]. by apply HP.
Qed.





(** * Further properties of the stream assembler *)

(** Handling frames only queues their updaters: the rendered list waits. *)
Lemma handle_frames_queue (frames : list WebSocketMessage) (s : App) :
  let s' := fold_left (fun acc f => handleWebSocketMessage f acc) frames s in
  messages s' = messages s /\
  pending s' = pending s ++ omap frame_updater frames.
Proof.
  revert s. induction frames as [|f frames IH]; intros s; simpl.
  - by rewrite app_nil_r.
  - destruct (IH (handleWebSocketMessage f s)) as [Hm Hp].
    simpl in Hm, Hp. rewrite Hm, Hp.
    destruct f; simpl; by rewrite <- ?app_assoc.
Qed.

Section relations.
Variable R : list Message -> list Message -> Prop.
Variable Q : WebSocketMessage -> bool.
Hypothesis R_refl : forall ms, R ms ms.
Hypothesis R_trans : forall a b c, R a b -> R b c -> R a c.
Hypothesis R_step : forall f u, Q f = true -> frame_updater f = Some u ->
  forall ref ms, R ms (u ref ms).

Lemma run_frame_updaters_rel ref (frames : list WebSocketMessage)
    (ms : list Message) :
  Forall (fun f => Q f = true) frames ->
  R ms (run_updaters ref (omap frame_updater frames) ms).
Proof.
  revert ms. induction frames as [|f frames IH]; intros ms HQ; simpl.
  - apply R_refl.
  - apply Forall_cons in HQ as [Hf HQ].
    destruct (frame_updater f) as [u|] eqn:Eu; simpl.
    + eapply R_trans; [by eapply R_step | by apply IH].
    + by apply IH.
Qed.

Lemma deliver_rel (frames : list WebSocketMessage) (s : App) :
  rendered s -> Forall (fun f => Q f = true) frames ->
  R (messages s) (messages (deliver frames s)) /\ rendered (deliver frames s).
Proof.
  intros Hp HQ. split; [|reflexivity].
  unfold deliver, render. simpl.
  destruct (handle_frames_queue frames s) as [Hm Hq].
  simpl in Hm, Hq. rewrite Hm, Hq, Hp. simpl.
  by apply run_frame_updaters_rel.
Qed.

Lemma deliver_all_rel (batches : list (list WebSocketMessage)) (s : App) :
  rendered s -> Forall (Forall (fun f => Q f = true)) batches ->
  R (messages s) (messages (deliver_all batches s)).
Proof.
  revert s. induction batches as [|b bs IH]; intros s Hp HQ; simpl.
  - apply R_refl.
  - apply Forall_cons in HQ as [Hb HQ].
    destruct (deliver_rel b s Hp Hb) as [HR Hp'].
    eapply R_trans; [exact HR|]. by apply IH.
Qed.
End relations.

Lemma all_frames (batches : list (list WebSocketMessage)) :
  Forall (Forall (fun f => (fun _ => true) f = true)) batches.
Proof. apply Forall_forall. intros b _. by apply Forall_forall. Qed.

Lemma count_streaming_mutate_last cond f (ms : list Message) :
  (forall m, truthy (isStreaming (f m)) = true ->
             truthy (isStreaming m) = true) ->
  count_streaming (mutate_last cond f ms) <= count_streaming ms.
Proof.
  intros Hf. destruct (snoc_cases ms) as [-> | (front & m & ->)]; [done|].
  rewrite mutate_last_snoc, !count_streaming_app, !count_streaming_single.
  destruct (cond m); [|lia].
  specialize (Hf m).
  destruct (truthy (isStreaming (f m))), (truthy (isStreaming m));
    try lia; by specialize (Hf eq_refl).
Qed.

Lemma count_streaming_pop (ms : list Message) :
  count_streaming (pop_if_streaming ms) <= count_streaming ms.
Proof.
  destruct (snoc_cases ms) as [-> | (front & m & ->)]; [done|].
  rewrite pop_if_streaming_snoc.
  destruct (truthy (isStreaming m)); [|lia].
  rewrite count_streaming_app. lia.
Qed.

(** X6.  Inbound frames never raise the number of streaming-flagged
    messages, whatever the frames and however they are batched: only the
    send path sets the flag. *)
Theorem frames_never_set_streaming (batches : list (list WebSocketMessage))
    (s : App) :
  rendered s ->
  count_streaming (messages (deliver_all batches s)) <=
  count_streaming (messages s).
Proof.
  intros Hp.
  apply (deliver_all_rel
           (fun ms ms' => count_streaming ms' <= count_streaming ms)
           (fun _ => true)); [lia | lia | | exact Hp | apply all_frames].
  intros f u _ Hu ref ms.
  destruct f; simpl in Hu; simplify_eq;
    unfold token_updater, sources_updater, debug_updater, complete_updater,
      error_updater;
    try (apply count_streaming_mutate_last; intros m; simpl; done).
  apply count_streaming_pop.
Qed.

Lemma frames_never_set_streaming_witness :
  rendered app_two_turns /\
  count_streaming
    (messages (deliver_all [[ws_token "Hi"; ws_sources "S"]; [ws_complete]]
                 app_two_turns)) <=
  count_streaming (messages app_two_turns).
Proof.
  split; [reflexivity|].
  exact (frames_never_set_streaming
           [[ws_token "Hi"; ws_sources "S"]; [ws_complete]] app_two_turns
           eq_refl).
Defined.

Lemma keys_mutate_last cond f (ms : list Message) :
  (forall m, message_key (f m) = message_key m) ->
  message_key <$> mutate_last cond f ms = message_key <$> ms.
Proof.
  intros Hf. destruct (snoc_cases ms) as [-> | (front & m & ->)]; [done|].
  rewrite mutate_last_snoc, !fmap_app. simpl.
  destruct (cond m); [by rewrite Hf | done].
Qed.

Lemma frame_updater_keys (f : WebSocketMessage) (u : Updater) ref
    (ms : list Message) :
  frame_updater f = Some u ->
  prefix (message_key <$> u ref ms) (message_key <$> ms) /\
  (is_error_frame f = false -> message_key <$> u ref ms = message_key <$> ms).
Proof.
  intros Hu.
  destruct f; simpl in Hu; simplify_eq;
    unfold token_updater, sources_updater, debug_updater, complete_updater,
      error_updater;
    try (rewrite keys_mutate_last by done; done).
  split; [|done].
  destruct (snoc_cases ms) as [-> | (front & m & ->)]; [done|].
  rewrite pop_if_streaming_snoc.
  destruct (truthy (isStreaming m)); [|done].
  rewrite fmap_app. by apply prefix_app_r.
Qed.

(** X7.  Inbound frames never add, reorder or re-identify messages: after
    any frames in any batching the sequence of (id, role, timestamp) is a
    prefix of the one before, and it is the same sequence when no error
    frame is among them. *)
Theorem frames_keep_message_order (batches : list (list WebSocketMessage))
    (s : App) :
  rendered s ->
  let ms' := messages (deliver_all batches s) in
  prefix (message_key <$> ms') (message_key <$> messages s) /\
  (Forall (Forall (fun f => is_error_frame f = false)) batches ->
   message_key <$> ms' = message_key <$> messages s).
Proof.
  intros Hp ms'. split.
  - apply (deliver_all_rel
             (fun ms ms' => prefix (message_key <$> ms') (message_key <$> ms))
             (fun _ => true)); [done | | | exact Hp | apply all_frames].
    + intros a b c Hab Hbc. by etrans.
    + intros f u _ Hu ref ms. by apply (frame_updater_keys f).
  - intros Hne.
    apply (deliver_all_rel
             (fun ms ms' => message_key <$> ms' = message_key <$> ms)
             (fun f => negb (is_error_frame f))); [done | | | exact Hp |].
    + intros a b c Hab Hbc. congruence.
    + intros f u Hq Hu ref ms. apply (frame_updater_keys f); [done|].
      by apply negb_true_iff.
    + eapply Forall_impl; [exact Hne|]. intros b Hb.
      eapply Forall_impl; [exact Hb|]. intros f Hf. simpl in *.
      by rewrite Hf.
Qed.

Lemma frames_keep_message_order_witness :
  rendered app_streaming /\
  Forall (Forall (fun f => is_error_frame f = false))
    [[ws_token "Hi"]; [ws_sources "S"; ws_complete]] /\
  message_key <$>
    messages (deliver_all [[ws_token "Hi"]; [ws_sources "S"; ws_complete]]
                app_streaming) =
  message_key <$> messages app_streaming.
Proof.
  assert (H : Forall (Forall (fun f => is_error_frame f = false))
                [[ws_token "Hi"]; [ws_sources "S"; ws_complete]]).
  { repeat constructor. }
  split; [reflexivity|]. split; [exact H|].
  exact (proj2 (frames_keep_message_order
                  [[ws_token "Hi"]; [ws_sources "S"; ws_complete]]
                  app_streaming eq_refl) H).
Defined.

Lemma users_mutate_last (f : Message -> Message) (ms : list Message) :
  (forall m, role (f m) = role m) ->
  (forall m, truthy (isStreaming (f m)) = true ->
             truthy (isStreaming m) = true) ->
  users_not_streaming ms ->
  users_not_streaming (mutate_last is_assistant f ms) /\
  filter is_user (mutate_last is_assistant f ms) = filter is_user ms.
Proof.
  intros Hrole Hflag Hu.
  destruct (snoc_cases ms) as [-> | (front & m & ->)]; [done|].
  rewrite mutate_last_snoc. unfold is_assistant.
  case_bool_decide as Hr; [|done].
  apply Forall_app in Hu as [Hfront _]. split.
  - apply Forall_app. split; [done|]. apply Forall_singleton.
    rewrite Hrole, Hr. done.
  - rewrite !filter_app. f_equal.
    rewrite !filter_cons, !filter_nil. unfold is_user.
    rewrite Hrole, Hr. by repeat case_decide.
Qed.

Lemma users_token_updater ref (ms : list Message) :
  users_not_streaming ms ->
  users_not_streaming (token_updater ref ms) /\
  filter is_user (token_updater ref ms) = filter is_user ms.
Proof.
  intros Hu. unfold token_updater.
  destruct (snoc_cases ms) as [-> | (front & m & ->)]; [done|].
  rewrite mutate_last_snoc. unfold is_assistant.
  case_bool_decide as Hr; simpl; [|done].
  destruct (truthy (isStreaming m)); [|done].
  apply Forall_app in Hu as [Hfront _]. split.
  - apply Forall_app. split; [done|]. apply Forall_singleton.
    simpl. by rewrite Hr.
  - rewrite !filter_app. f_equal.
    rewrite !filter_cons, !filter_nil. unfold is_user. simpl.
    rewrite Hr. by repeat case_decide.
Qed.

Lemma users_pop (ms : list Message) :
  users_not_streaming ms ->
  users_not_streaming (pop_if_streaming ms) /\
  filter is_user (pop_if_streaming ms) = filter is_user ms.
Proof.
  intros Hu.
  destruct (snoc_cases ms) as [-> | (front & m & ->)]; [done|].
  rewrite pop_if_streaming_snoc.
  destruct (truthy (isStreaming m)) eqn:Et; [|done].
  apply Forall_app in Hu as [Hfront Hm]. split; [done|].
  rewrite Forall_singleton in Hm.
  rewrite filter_app, filter_cons, filter_nil. unfold is_user.
  case_decide as Hr; [|by rewrite app_nil_r].
  specialize (Hm Hr). congruence.
Qed.

(** X8.  A user's message is never altered or dropped by inbound frames:
    in a list where no user message carries the streaming flag (the send
    path and the loader never set it on one), the user messages after any
    frames in any batching are exactly the user messages before, and still
    none of them carries the flag. *)
Theorem frames_keep_user_messages (batches : list (list WebSocketMessage))
    (s : App) :
  rendered s -> users_not_streaming (messages s) ->
  let ms' := messages (deliver_all batches s) in
  filter is_user ms' = filter is_user (messages s) /\
  users_not_streaming ms'.
Proof.
  intros Hp Hu ms'.
  cut (users_not_streaming (messages s) ->
       users_not_streaming ms' /\
       filter is_user ms' = filter is_user (messages s)).
  { intros H. destruct (H Hu). done. }
  apply (deliver_all_rel
           (fun ms ms' => users_not_streaming ms ->
              users_not_streaming ms' /\ filter is_user ms' = filter is_user ms)
           (fun _ => true)); [done | | | exact Hp | apply all_frames].
  - intros a b c Hab Hbc Ha. destruct (Hab Ha) as [Hb Hfb].
    destruct (Hbc Hb) as [Hc Hfc]. split; [done | congruence].
  - intros f u _ Hf ref ms Hms.
    destruct f; simpl in Hf; simplify_eq.
    + by apply users_token_updater.
    + by apply users_mutate_last.
    + by apply users_mutate_last.
    + by apply users_mutate_last.
    + by apply users_pop.
Qed.

Lemma frames_keep_user_messages_witness :
  rendered app_two_turns /\ users_not_streaming (messages app_two_turns) /\
  filter is_user
    (messages (deliver_all [[ws_error "boom"]; [ws_error "boom"]]
                 app_two_turns)) =
  filter is_user (messages app_two_turns).
Proof.
  assert (H : users_not_streaming (messages app_two_turns)).
  { repeat first [apply Forall_nil_2 | apply Forall_cons_2];
      simpl; intros Hr; first [reflexivity | discriminate Hr]. }
  split; [reflexivity|]. split; [exact H|].
  exact (proj1 (frames_keep_user_messages
                  [[ws_error "boom"]; [ws_error "boom"]] app_two_turns
                  eq_refl H)).
Defined.

Lemma count_streaming_zero_last (front : list Message) (m : Message) :
  count_streaming (front ++ [m]) = 0 -> truthy (isStreaming m) = false.
Proof.
  rewrite count_streaming_app, count_streaming_single.
  destruct (truthy (isStreaming m)); [lia | done].
Qed.

(** X9.  Frames of an abandoned turn do no harm to a list without a
    streaming message (a conversation just loaded, or a turn already
    ended): token, status and error frames, in any number and batching,
    leave such a list exactly as it is. *)
Theorem late_frames_leave_settled_list
    (batches : list (list WebSocketMessage)) (s : App) :
  rendered s -> count_streaming (messages s) = 0 ->
  Forall (Forall (fun f => is_token_status_error f = true)) batches ->
  messages (deliver_all batches s) = messages s.
Proof.
  intros Hp Hc HQ.
  cut (count_streaming (messages s) = 0 ->
       messages (deliver_all batches s) = messages s); [by intros H; apply H|].
  apply (deliver_all_rel
           (fun ms ms' => count_streaming ms = 0 -> ms' = ms)
           is_token_status_error); [done | | | exact Hp | exact HQ].
  - intros a b c Hab Hbc Ha. rewrite <- (Hab Ha). apply Hbc.
    by rewrite (Hab Ha).
  - intros f u Hq Hu ref ms H0.
    destruct (snoc_cases ms) as [-> | (front & m & ->)].
    + destruct f; simpl in Hu; simplify_eq; done.
    + pose proof (count_streaming_zero_last front m H0) as Hm.
      destruct f; simpl in Hq, Hu; simplify_eq.
      * unfold token_updater. rewrite mutate_last_snoc, Hm.
        by rewrite andb_false_r.
      * unfold error_updater. by rewrite pop_if_streaming_snoc, Hm.
Qed.

Lemma late_frames_leave_settled_list_witness :
  rendered app_completed /\ count_streaming (messages app_completed) = 0 /\
  messages (deliver_all [[ws_token " more"; ws_status "x"]; [ws_error "late"]]
              app_completed) = messages app_completed.
Proof.
  split; [reflexivity|]. split; [reflexivity|].
  apply (late_frames_leave_settled_list
           [[ws_token " more"; ws_status "x"]; [ws_error "late"]]
           app_completed eq_refl eq_refl).
  repeat constructor.
Defined.

Lemma run_updaters_cons ref (u : Updater) (us : list Updater)
    (ms : list Message) :
  run_updaters ref (u :: us) ms = run_updaters ref us (u ref ms).
Proof. reflexivity. Qed.

(** The state after frames that are tokens, status texts and debug
    payloads: the accumulator grows by the token payloads, the last
    message keeps its identity and flag, and its content is the
    accumulator as soon as one token arrived. *)
Lemma run_tsd_updaters ref (frames : list WebSocketMessage)
    (front : list Message) (m : Message) :
  Forall (fun f => is_token_status_debug f = true) frames ->
  role m = assistant -> isStreaming m = Some true ->
  exists m',
    run_updaters ref (omap frame_updater frames) (front ++ [m]) =
      front ++ [m'] /\
    role m' = assistant /\ isStreaming m' = Some true /\ id m' = id m /\
    content m' = match token_payloads frames with
                 | [] => content m
                 | _ => ref
                 end.
Proof.
  revert m. induction frames as [|f frames IH]; intros m HQ Hr Hs.
  - exists m. by simpl.
  - apply Forall_cons in HQ as [Hf HQ].
    destruct f; simpl in Hf; try discriminate Hf;
      cbn [omap list_omap frame_updater].
    + rewrite run_updaters_cons.
      assert (E0 : token_updater ref (front ++ [m]) =
                   front ++ [set_content ref m]).
      { unfold token_updater. rewrite mutate_last_snoc.
        unfold is_assistant. by rewrite Hr, Hs. }
      rewrite E0.
      destruct (IH (set_content ref m) HQ Hr Hs)
        as (m' & E & ? & ? & ? & Hc).
      exists m'. repeat split; try done.
      rewrite Hc. unfold token_payloads. cbn [omap list_omap].
      fold (token_payloads frames). by destruct (token_payloads frames).
    + rewrite run_updaters_cons.
      assert (E0 : debug_updater info ref (front ++ [m]) =
                   front ++ [set_debugInfo info m]).
      { unfold debug_updater. rewrite mutate_last_snoc.
        unfold is_assistant. by rewrite Hr. }
      rewrite E0.
      destruct (IH (set_debugInfo info m) HQ Hr Hs)
        as (m' & E & ? & ? & ? & Hc).
      exists m'. repeat split; done.
    + by apply IH.
Qed.

Lemma handle_tsd_ref (frames : list WebSocketMessage) (s : App) :
  Forall (fun f => is_token_status_debug f = true) frames ->
  currentMessageRef
    (fold_left (fun acc f => handleWebSocketMessage f acc) frames s) =
  currentMessageRef s +:+ join_tokens (token_payloads frames).
Proof.
  revert s. induction frames as [|f frames IH]; intros s HQ; simpl.
  - by rewrite str_app_nil_r.
  - apply Forall_cons in HQ as [Hf HQ]. rewrite IH by done.
    destruct f; simpl in Hf; try discriminate Hf; simpl; [|done..].
    by rewrite str_app_assoc.
Qed.

Lemma deliver_all_tsd (batches : list (list WebSocketMessage)) (s : App)
    (front : list Message) (m : Message) :
  rendered s -> messages s = front ++ [m] ->
  role m = assistant -> isStreaming m = Some true ->
  Forall (Forall (fun f => is_token_status_debug f = true)) batches ->
  let s' := deliver_all batches s in
  exists m',
    messages s' = front ++ [m'] /\ rendered s' /\
    role m' = assistant /\ isStreaming m' = Some true /\ id m' = id m /\
    currentMessageRef s' =
      currentMessageRef s +:+ join_tokens (token_payloads (concat batches)) /\
    content m' = match token_payloads (concat batches) with
                 | [] => content m
                 | _ => currentMessageRef s'
                 end.
Proof.
  revert s m. induction batches as [|b bs IH]; intros s m Hp Hm Hr Hs HQ.
  - exists m. simpl. by rewrite str_app_nil_r.
  - apply Forall_cons in HQ as [Hb HQ]. simpl.
    destruct (handle_frames_queue b s) as [Hmb Hqb]. simpl in Hmb, Hqb.
    pose proof (handle_tsd_ref b s Hb) as Href.
    set (ref1 := currentMessageRef s +:+ join_tokens (token_payloads b)) in *.
    destruct (run_tsd_updaters ref1 b front m Hb Hr Hs)
      as (m1 & E1 & Hr1 & Hs1 & Hid1 & Hc1).
    assert (Hm1 : messages (deliver b s) = front ++ [m1]).
    { unfold deliver, render. simpl.
      rewrite Hmb, Hqb, Hp, Href, Hm. simpl. exact E1. }
    assert (Href1 : currentMessageRef (deliver b s) = ref1).
    { unfold deliver, render. simpl. exact Href. }
    destruct (IH (deliver b s) m1 eq_refl Hm1 Hr1 Hs1 HQ)
      as (m' & E & Hp' & Hr' & Hs' & Hid' & Href' & Hc').
    exists m'. split; [exact E|]. split; [exact Hp'|].
    split; [done|]. split; [done|]. split; [congruence|].
    unfold token_payloads in *. rewrite omap_app.
    fold (token_payloads b) in *. fold (token_payloads (concat bs)) in *.
    split.
    + rewrite Href', Href1. unfold ref1.
      by rewrite join_tokens_app, str_app_assoc.
    + rewrite Hc', Hc1.
      destruct (token_payloads (concat bs)) as [|t ts] eqn:Ebs.
      * rewrite app_nil_r. destruct (token_payloads b); [done|].
        rewrite Href', Href1. simpl. by rewrite str_app_nil_r.
      * by destruct (token_payloads b).
Qed.

(** X10.  Status and debug frames do not disturb the assembled text: for a
    turn whose frames are tokens, status texts and debug payloads in any
    order and batching, the streaming message ends with the concatenation
    of the token payloads as its content, and still streaming. *)
Theorem status_and_debug_do_not_disturb_tokens
    (batches : list (list WebSocketMessage)) (s : App)
    (front : list Message) (m : Message) :
  rendered s -> currentMessageRef s = EmptyString ->
  messages s = front ++ [m] ->
  role m = assistant -> isStreaming m = Some true ->
  Forall (Forall (fun f => is_token_status_debug f = true)) batches ->
  token_payloads (concat batches) <> [] ->
  exists m',
    messages (deliver_all batches s) = front ++ [m'] /\
    id m' = id m /\ isStreaming m' = Some true /\
    content m' = join_tokens (token_payloads (concat batches)).
Proof.
  intros Hp Href Hm Hr Hs HQ Hne.
  destruct (deliver_all_tsd batches s front m Hp Hm Hr Hs HQ)
    as (m' & E & _ & _ & Hs' & Hid & Href' & Hc).
  exists m'. split; [exact E|]. split; [exact Hid|]. split; [exact Hs'|].
  rewrite Hc, Href', Href.
  by destruct (token_payloads (concat batches)).
Qed.

Lemma status_and_debug_do_not_disturb_tokens_witness :
  rendered app_streaming /\
  token_payloads (concat [[ws_status "Searching"; ws_token "Hi"];
                          [ws_status "Writing"; ws_token " there"]]) <> [] /\
  exists m',
    messages (deliver_all [[ws_status "Searching"; ws_token "Hi"];
                           [ws_status "Writing"; ws_token " there"]]
                app_streaming) = [userMessage clock0 "Hello"] ++ [m'] /\
    id m' = id (assistantMessage clock0) /\ isStreaming m' = Some true /\
    content m' = "Hi there".
Proof.
  split; [reflexivity|]. split; [discriminate|].
  apply (status_and_debug_do_not_disturb_tokens
           [[ws_status "Searching"; ws_token "Hi"];
            [ws_status "Writing"; ws_token " there"]]
           app_streaming [userMessage clock0 "Hello"]
           (assistantMessage clock0));
    try reflexivity; [repeat constructor | discriminate].
Defined.

(** X11.  The sources text stays in the content only when no token follows
    it: after a token frame then a sources frame the streaming message
    holds the accumulated text followed by the sources text, while after
    the same frames in the other order the token's overwrite has dropped
    the sources text from the content (the [sources] field holds it in
    both cases). *)
Theorem sources_text_survives_only_after_tokens (s : App)
    (front : list Message) (m : Message) (t x : string) :
  rendered s -> messages s = front ++ [m] ->
  role m = assistant -> isStreaming m = Some true ->
  messages (dispatch (ws_sources x) (dispatch (ws_token t) s)) =
    front ++ [set_sources x
                (set_content ((currentMessageRef s +:+ t) +:+ x) m)] /\
  messages (dispatch (ws_token t) (dispatch (ws_sources x) s)) =
    front ++ [set_sources x (set_content (currentMessageRef s +:+ t) m)].
Proof.
  intros Hp Hm Hr Hs. split.
  - rewrite (dispatch_messages (ws_sources x)) by reflexivity.
    rewrite (dispatch_messages (ws_token t)) by assumption.
    rewrite Hm. unfold token_updater, sources_updater.
    rewrite !mutate_last_snoc. unfold is_assistant.
    rewrite ?(bool_decide_true (role m = assistant)) by done.
    rewrite ?Hs. simpl. rewrite ?Hs.
    rewrite ?bool_decide_true by done. reflexivity.
  - rewrite (dispatch_messages (ws_token t)) by reflexivity.
    rewrite (dispatch_messages (ws_sources x)) by assumption.
    rewrite Hm. unfold token_updater, sources_updater.
    rewrite !mutate_last_snoc. unfold is_assistant.
    rewrite ?(bool_decide_true (role m = assistant)) by done.
    rewrite ?Hs. simpl. rewrite ?Hs.
    rewrite ?bool_decide_true by done. reflexivity.
Qed.

Lemma sources_text_survives_only_after_tokens_witness :
  rendered app_streaming /\
  content <$> last (messages (dispatch (ws_sources " [1]")
                                (dispatch (ws_token "Hi") app_streaming))) =
    Some "Hi [1]" /\
  content <$> last (messages (dispatch (ws_token "Hi")
                                (dispatch (ws_sources " [1]") app_streaming))) =
    Some "Hi".
Proof.
  split; [reflexivity|].
  destruct (sources_text_survives_only_after_tokens app_streaming
              [userMessage clock0 "Hello"] (assistantMessage clock0)
              "Hi" " [1]" eq_refl eq_refl eq_refl eq_refl) as [H1 H2].
  split.
  - exact (f_equal (fun ms => content <$> last ms) H1).
  - exact (f_equal (fun ms => content <$> last ms) H2).
Defined.

(** * Stop, regenerate and send *)

(** X12.  Stopping resets the loading state only.  With no active
    conversation nothing happens at all; when the request fails the
    streaming core is left as it is; otherwise loading and status are
    reset, but the placeholder stays flagged and the accumulator is kept,
    so token frames that still arrive go on being assembled into it. *)
Theorem stop_keeps_assembling (r : Fetch unit) (s : Session) (cid : string)
    (batches : list (list string)) (front : list Message) (m : Message) :
  (truthy_string (currentConversationId s) = None ->
   handleStopGeneration r s = s) /\
  (truthy_string (currentConversationId s) = Some cid ->
   (forall err, app (handleStopGeneration (fetch_rejected err) s) = app s) /\
   ((forall err, r <> fetch_rejected err) ->
    let a := app (handleStopGeneration r s) in
    isLoading a = false /\ status a = EmptyString /\
    messages a = messages (app s) /\
    currentMessageRef a = currentMessageRef (app s) /\
    (rendered (app s) -> messages (app s) = front ++ [m] ->
     role m = assistant -> isStreaming m = Some true ->
     concat batches <> [] ->
     messages (deliver_all (map (map ws_token) batches) a) =
     front ++ [set_content (currentMessageRef (app s) +:+
                              join_tokens (concat batches)) m]))).
Proof.
  split.
  - intros H. unfold handleStopGeneration. by rewrite H.
  - intros H. split.
    + intros err. unfold handleStopGeneration. by rewrite H.
    + intros Hr a.
      assert (Ea : a = setStatus EmptyString (setIsLoading false (app s))).
      { unfold a, handleStopGeneration. rewrite H.
        destruct r as [[]| |err]; [done | done | by destruct (Hr err)]. }
      rewrite Ea. repeat split; try done.
      intros Hp Hm Hrole Hs Hne.
      rewrite (deliver_all_tokens batches _ front m); try done.
      simpl. by destruct (concat batches).
Qed.

Lemma stop_keeps_assembling_witness :
  truthy_string (currentConversationId session_streaming) = Some "c1" /\
  isLoading (app (handleStopGeneration fetch_not_ok session_streaming)) =
    false /\
  messages (deliver_all (map (map ws_token) [["late"]])
              (app (handleStopGeneration fetch_not_ok session_streaming))) =
  [userMessage clock0 "Hello"] ++
  [set_content "late" (assistantMessage clock0)].
Proof.
  split; [reflexivity|].
  destruct (proj2 (stop_keeps_assembling fetch_not_ok session_streaming "c1"
                     [["late"]] [userMessage clock0 "Hello"]
                     (assistantMessage clock0)) eq_refl) as [_ H].
  destruct (H ltac:(discriminate)) as (Hl & _ & _ & _ & Ht).
  split; [exact Hl|].
  exact (Ht eq_refl eq_refl eq_refl eq_refl ltac:(discriminate)).
Defined.

Lemma find_user_after (l : list Message) (rest : list Message) :
  Forall (fun m => role m <> user) l ->
  find (fun m => bool_decide (role m = user)) (l ++ rest) =
  find (fun m => bool_decide (role m = user)) rest.
Proof.
  induction 1 as [|m l Hm _ IH]; [done|]. simpl.
  by rewrite bool_decide_false.
Qed.

Lemma lastUserMessage_split (l1 l2 : list Message) (u : Message) :
  role u = user -> Forall (fun m => role m <> user) l2 ->
  lastUserMessage (l1 ++ u :: l2) = Some u.
Proof.
  intros Hu Hl2. unfold lastUserMessage.
  rewrite reverse_app, reverse_cons, <- app_assoc.
  rewrite find_user_after by by apply Forall_reverse.
  simpl. by rewrite bool_decide_true.
Qed.

Lemma lastUserMessage_none (ms : list Message) :
  Forall (fun m => role m <> user) ms -> lastUserMessage ms = None.
Proof.
  intros H. unfold lastUserMessage.
  rewrite <- (app_nil_r (reverse ms)).
  rewrite find_user_after by by apply Forall_reverse. done.
Qed.

Lemma sendMessageToServer_conn clock cid content (a : App) (c : Conn) :
  snd (sendMessageToServer clock cid content a c) =
  snd (UseWebSocket.send (Request.mk cid content (history_of (messages a))) c).
Proof.
  unfold sendMessageToServer, sendMessageToServer_of. simpl.
  destruct (UseWebSocket.send _ c) as [[] c']; reflexivity.
Qed.

Lemma start_turn_parts clock cid content (a : App) (c : Conn) :
  start_turn clock cid content a c =
  (render (fst (sendMessageToServer clock cid content a c)),
   snd (sendMessageToServer clock cid content a c)).
Proof.
  unfold start_turn. by destruct (sendMessageToServer clock cid content a c).
Qed.

Lemma send_in_session_parts clock cid content (s : Session) (c : Conn) :
  send_in_session clock cid content s c =
  (on_app (fun _ => fst (sendMessageToServer clock cid content (app s) c)) s,
   snd (sendMessageToServer clock cid content (app s) c)).
Proof.
  unfold send_in_session.
  by destruct (sendMessageToServer clock cid content (app s) c).
Qed.

Lemma send_in_session_open clock cid content (s : Session) (c : Conn)
    (i : nat) (ws : WebSocket) :
  rendered (app s) ->
  wsRef c = Some i -> sockets c !! i = Some ws -> readyState ws = OPEN ->
  let r := send_in_session clock cid content s c in
  messages (render (app r.1)) =
    messages (app s) ++ [userMessage clock content; assistantMessage clock] /\
  sockets r.2 !! i =
    Some (mkWebSocket (url ws) OPEN
            (sent ws ++
             [Request.mk cid content (history_of (messages (app s)))])) /\
  currentConversationId r.1 = currentConversationId s /\
  requests r.1 = requests s /\
  UseWebSocket.isConnected c = true.
Proof.
  intros Hp Hi Hws Hr r.
  destruct (send_on_open
              (Request.mk cid content (history_of (messages (app s))))
              c i ws Hi Hws Hr) as [Ho Hsent].
  pose proof (start_turn_sent clock cid content (app s) c Hp Ho) as Hst.
  rewrite start_turn_parts in Hst.
  pose proof (sendMessageToServer_conn clock cid content (app s) c) as Hc.
  unfold r. rewrite send_in_session_parts.
  remember (sendMessageToServer clock cid content (app s) c) as X.
  unfold on_app. cbn [fst snd app currentConversationId requests].
  cbn [fst] in Hst. rewrite Hst, Hc. done.
Qed.

(** X13.  Regenerating resends the last user message as a new turn, on
    top of the list: the earlier messages, the previous assistant reply
    among them, stay where they are, the payload's content is that of the
    user message nearest the end, and the message id handed in plays no
    part.  With no user message in the list, or no active conversation,
    nothing happens. *)
Theorem regenerate_resends_last_user_message clock (messageId cid : string)
    (s : Session) (c : Conn) (i : nat) (ws : WebSocket)
    (l1 l2 : list Message) (u : Message) :
  (Forall (fun m => role m <> user) (messages (app s)) \/
   truthy_string (currentConversationId s) = None ->
   handleRegenerateMessage clock messageId s c = (s, c)) /\
  (rendered (app s) ->
   wsRef c = Some i -> sockets c !! i = Some ws -> readyState ws = OPEN ->
   truthy_string (currentConversationId s) = Some cid ->
   messages (app s) = l1 ++ u :: l2 -> role u = user ->
   Forall (fun m => role m <> user) l2 ->
   let r := handleRegenerateMessage clock messageId s c in
   messages (render (app r.1)) =
     messages (app s) ++
     [userMessage clock (content u); assistantMessage clock] /\
   sockets r.2 !! i =
     Some (mkWebSocket (url ws) OPEN
             (sent ws ++
              [Request.mk cid (content u) (history_of (messages (app s)))]))).
Proof.
  split.
  - intros [H|H]; unfold handleRegenerateMessage.
    + by rewrite lastUserMessage_none.
    + rewrite H. by destruct (lastUserMessage _).
  - intros Hp Hi Hws Hr Hc Hm Hu Hl2 r.
    unfold r, handleRegenerateMessage.
    rewrite Hm, (lastUserMessage_split l1 l2 u Hu Hl2), Hc, <- Hm.
    destruct (send_in_session_open clock cid (content u) s c i ws
                Hp Hi Hws Hr) as (H1 & H2 & _).
    done.
Qed.

Lemma regenerate_resends_last_user_message_witness :
  rendered (app session_completed) /\
  messages (render (app (handleRegenerateMessage clock1 "any id"
                           session_completed conn_streaming).1)) =
  messages app_completed ++
  [userMessage clock1 "Hello"; assistantMessage clock1].
Proof.
  split; [reflexivity|].
  refine (proj1 (proj2 (regenerate_resends_last_user_message clock1 "any id"
             "c1" session_completed conn_streaming 0
             (mkWebSocket "wss://chat.example.org/ws/chat" OPEN
                [Request.mk "c1" "Hello" []])
             [] [set_isStreaming false
                   (set_content "Hi there" (assistantMessage clock0))]
             (userMessage clock0 "Hello"))
             eq_refl eq_refl eq_refl eq_refl eq_refl eq_refl eq_refl _)).
  repeat constructor. discriminate.
Defined.

(** X14.  A first message whose conversation cannot be created is lost.
    With no active conversation, a submit that passes the input's guard
    empties the input in every case; when the create call's response is
    not ok the streaming core and the channel are left untouched (no
    message is appended, nothing is sent, no error is shown), and when the
    request fails the only trace is the error "Failed to create
    conversation". *)
Theorem first_message_lost_when_create_fails (trim : string -> string) clock
    (err : string) (s : Session) (c : Conn) :
  truthy_string (currentConversationId s) = None ->
  isLoading (app s) = false -> isConnected (app s) = true ->
  trim (inputValue s) <> EmptyString ->
  let r1 := submit_input trim clock fetch_not_ok s c in
  let r2 := submit_input trim clock (fetch_rejected err) s c in
  inputValue r1.1 = EmptyString /\ app r1.1 = app s /\ r1.2 = c /\
  currentConversationId r1.1 = currentConversationId s /\
  inputValue r2.1 = EmptyString /\
  app r2.1 = setError (Some "Failed to create conversation") (app s) /\
  r2.2 = c /\
  requests r1.1 =
    requests s ++
    [Http.mk "POST" "/api/conversations"
       (Http.title_body (String.substring 0 50 (trim (inputValue s))))].
Proof.
  intros H Hl Hc Ht r1 r2.
  unfold r1, r2, submit_input, ChatInput_handleSubmit. rewrite Hl, Hc.
  apply String.eqb_neq in Ht. rewrite Ht. simpl.
  unfold handleSendMessage. rewrite H. done.
Qed.

Lemma first_message_lost_when_create_fails_witness :
  truthy_string (currentConversationId session_new) = None /\
  trim0 (inputValue session_new) <> EmptyString /\
  inputValue (submit_input trim0 clock0 fetch_not_ok session_new conn_open).1 =
    EmptyString /\
  app (submit_input trim0 clock0 fetch_not_ok session_new conn_open).1 =
    app session_new /\
  (submit_input trim0 clock0 fetch_not_ok session_new conn_open).2 = conn_open.
Proof.
  assert (Ht : trim0 (inputValue session_new) <> EmptyString) by discriminate.
  split; [reflexivity|]. split; [exact Ht|].
  destruct (first_message_lost_when_create_fails trim0 clock0 "offline"
              session_new conn_open eq_refl eq_refl eq_refl Ht)
    as (H1 & H2 & H3 & _).
  exact (conj H1 (conj H2 H3)).
Defined.



(** X16.  The input box starts no turn while a reply is loading, while the
    app is disconnected, or when the text is blank after trimming: the
    submit then changes nothing, whatever [trim] does otherwise. *)
Theorem input_guard (trim : string -> string) clock (r : Fetch string)
    (s : Session) (c : Conn) :
  isLoading (app s) = true \/ isConnected (app s) = false \/
  trim (inputValue s) = EmptyString ->
  submit_input trim clock r s c = (s, c).
Proof.
  intros H. unfold submit_input, ChatInput_handleSubmit.
  destruct H as [-> | [-> | ->]]; simpl;
    by rewrite ?andb_false_r.
Qed.

Lemma input_guard_witness :
  isLoading (app session_streaming) = true /\
  submit_input trim0 clock1 fetch_not_ok session_streaming conn_streaming =
  (session_streaming, conn_streaming).
Proof.
  split; [reflexivity|].
  exact (input_guard trim0 clock1 fetch_not_ok session_streaming
           conn_streaming (or_introl eq_refl)).
Defined.

(** X17.  A submit that passes the guard hands the trimmed text to the send
    path and empties the input: on an active conversation and an open
    channel the payload's content is the trimmed text. *)
Theorem input_submits_trimmed_text (trim : string -> string) clock
    (r : Fetch string) (s : Session) (c : Conn) (cid : string) (i : nat)
    (ws : WebSocket) :
  rendered (app s) ->
  wsRef c = Some i -> sockets c !! i = Some ws -> readyState ws = OPEN ->
  isLoading (app s) = false -> isConnected (app s) = true ->
  trim (inputValue s) <> EmptyString ->
  truthy_string (currentConversationId s) = Some cid ->
  let out := submit_input trim clock r s c in
  inputValue out.1 = EmptyString /\
  sockets out.2 !! i =
    Some (mkWebSocket (url ws) OPEN
            (sent ws ++
             [Request.mk cid (trim (inputValue s))
                (history_of (messages (app s)))])) /\
  messages (render (app out.1)) =
    messages (app s) ++
    [userMessage clock (trim (inputValue s)); assistantMessage clock].
Proof.
  intros Hp Hi Hws Hr Hl Hc Ht Hcid out.
  destruct (send_in_session_open clock cid (trim (inputValue s)) s c i ws
              Hp Hi Hws Hr) as (H1 & H2 & _).
  unfold out, submit_input, ChatInput_handleSubmit. rewrite Hl, Hc.
  apply String.eqb_neq in Ht. rewrite Ht. simpl.
  unfold handleSendMessage. rewrite Hcid.
  destruct (send_in_session clock cid (trim (inputValue s)) s c) as [s' c'].
  simpl in *. done.
Qed.

Lemma input_submits_trimmed_text_witness :
  trim0 (inputValue session_completed) = "And then?" /\
  inputValue (submit_input trim0 clock1 fetch_not_ok session_completed
                conn_streaming).1 = EmptyString /\
  sockets (submit_input trim0 clock1 fetch_not_ok session_completed
             conn_streaming).2 !! 0 =
    Some (mkWebSocket "wss://chat.example.org/ws/chat" OPEN
            [Request.mk "c1" "Hello" [];
             Request.mk "c1" "And then?"
               [(user, "Hello"); (assistant, "Hi there")]]).
Proof.
  split; [reflexivity|].
  destruct (input_submits_trimmed_text trim0 clock1 fetch_not_ok
              session_completed conn_streaming "c1" 0
              (mkWebSocket "wss://chat.example.org/ws/chat" OPEN
                 [Request.mk "c1" "Hello" []])
              eq_refl eq_refl eq_refl eq_refl eq_refl eq_refl
              ltac:(discriminate) eq_refl) as (H1 & H2 & _).
  exact (conj H1 H2).
Defined.

(** * Message actions *)

Lemma map_by_id_lookup (messageId : string) (change : Message -> Message)
    (ms : list Message) (i : nat) :
  map_by_id messageId change ms !! i =
  (fun m => if String.eqb (id m) messageId then change m else m) <$> ms !! i.
Proof. unfold map_by_id. apply list_lookup_fmap. Qed.

Lemma map_by_id_fields {B : Type} (field : Message -> B) (messageId : string)
    (change : Message -> Message) (ms : list Message) :
  (forall m, field (change m) = field m) ->
  field <$> map_by_id messageId change ms = field <$> ms.
Proof.
  intros H. unfold map_by_id. rewrite <- list_fmap_compose.
  apply list_fmap_ext. intros _ m _. simpl.
  destruct (String.eqb (id m) messageId); [apply H | done].
Qed.

(** X18.  Editing, bookmarking and rating never move, re-identify or
    re-flag a message: the list keeps its length, the sequence of (id,
    role, timestamp) and every streaming flag, and each message whose id is
    not the target's is left exactly as it is, at its position. *)
Theorem actions_rewrite_in_place (u : Updater) (messageId : string) ref
    (ms : list Message) :
  action_target u messageId ->
  length (u ref ms) = length ms /\
  message_key <$> u ref ms = message_key <$> ms /\
  isStreaming <$> u ref ms = isStreaming <$> ms /\
  count_streaming (u ref ms) = count_streaming ms /\
  (forall i m, ms !! i = Some m -> id m <> messageId ->
               u ref ms !! i = Some m).
Proof.
  intros Hu.
  assert (exists change, u ref ms = map_by_id messageId change ms /\
            (forall m, message_key (change m) = message_key m) /\
            (forall m, isStreaming (change m) = isStreaming m))
    as (change & E & Hk & Hs).
  { destruct Hu as [[content ->] | [-> | [feedback ->]]]; eexists;
      (split; [reflexivity|]); by split. }
  rewrite E.
  assert (Hflags : isStreaming <$> map_by_id messageId change ms =
                   isStreaming <$> ms) by by apply map_by_id_fields.
  split; [apply length_map|]. split; [by apply map_by_id_fields|].
  split; [exact Hflags|]. split.
  - unfold count_streaming.
    transitivity (length (filter (fun b => truthy b = true)
                            (isStreaming <$> map_by_id messageId change ms))).
    + clear. induction (map_by_id messageId change ms) as [|m l IH]; [done|].
      rewrite fmap_cons, !filter_cons. simpl.
      repeat case_decide; simpl; congruence.
    + rewrite Hflags. clear. induction ms as [|m l IH]; [done|].
      rewrite fmap_cons, !filter_cons. simpl.
      repeat case_decide; simpl; congruence.
  - intros i m Hi Hne. rewrite map_by_id_lookup, Hi. simpl.
    apply String.eqb_neq in Hne. by rewrite Hne.
Qed.

Lemma actions_rewrite_in_place_witness :
  action_target (edit_updater (id (userMessage clock0 "Hello")) "Hi!")
                (id (userMessage clock0 "Hello")) /\
  count_streaming
    (edit_updater (id (userMessage clock0 "Hello")) "Hi!" EmptyString
       (messages app_streaming)) = count_streaming (messages app_streaming).
Proof.
  assert (H : action_target
                (edit_updater (id (userMessage clock0 "Hello")) "Hi!")
                (id (userMessage clock0 "Hello"))).
  { left. by eexists. }
  split; [exact H|].
  exact (proj1 (proj2 (proj2 (proj2
           (actions_rewrite_in_place _ _ EmptyString (messages app_streaming)
              H))))).
Defined.

Lemma count_streaming_filter (P : Message -> Prop)
    `{!forall m, Decision (P m)} (ms : list Message) :
  count_streaming (filter P ms) <= count_streaming ms.
Proof.
  induction ms as [|m ms IH]; [done|].
  rewrite filter_cons.
  pose proof (count_streaming_app [m] ms) as H1.
  pose proof (count_streaming_app [m] (filter P ms)) as H2.
  simpl in H1, H2.
  case_decide; lia.
Qed.

(** X19.  Deleting a message removes every message that carries the id and
    nothing else: none with that id is left, the others keep their relative
    order, deleting again changes nothing, a list without the id is left as
    it is, and no streaming flag is added. *)
Theorem delete_removes_exactly_the_id (messageId : string) ref
    (ms : list Message) :
  let ms' := delete_updater messageId ref ms in
  Forall (fun m => id m <> messageId) ms' /\
  sublist ms' ms /\
  (forall m, id m <> messageId -> (elem_of m ms' <-> elem_of m ms)) /\
  delete_updater messageId ref ms' = ms' /\
  (Forall (fun m => id m <> messageId) ms -> ms' = ms) /\
  count_streaming ms' <= count_streaming ms.
Proof.
  intros ms'. unfold ms', delete_updater.
  split; [|split; [|split; [|split; [|split]]]].
  - apply Forall_forall. intros m Hm.
    by apply list_elem_of_filter in Hm as [? _].
  - apply sublist_filter.
  - intros m Hne. rewrite list_elem_of_filter. tauto.
  - by apply list_filter_filter_r.
  - intros H. induction H as [|m l Hm _ IH]; [done|].
    rewrite filter_cons. case_decide; [by rewrite IH | done].
  - apply count_streaming_filter.
Qed.

Lemma delete_removes_exactly_the_id_witness :
  Forall (fun m => id m <> "no such id") (messages app_streaming) /\
  delete_updater "no such id" EmptyString (messages app_streaming) =
    messages app_streaming.
Proof.
  assert (H : Forall (fun m => id m <> "no such id") (messages app_streaming)).
  { repeat first [apply Forall_nil_2 | apply Forall_cons_2]; discriminate. }
  split; [exact H|].
  exact (proj1 (proj2 (proj2 (proj2 (proj2
           (delete_removes_exactly_the_id "no such id" EmptyString
              (messages app_streaming)))))) H).
Defined.

(** X20.  Bookmarking twice gives back the bookmark: every message is as
    before except that an absent flag on the target now reads false; the
    truthiness of every bookmark flag is restored. *)
Theorem bookmark_twice_restores (messageId : string) ref ref'
    (ms : list Message) :
  let ms'' :=
    bookmark_updater messageId ref' (bookmark_updater messageId ref ms) in
  ms'' = map_by_id messageId
           (fun m => set_isBookmarked (truthy (isBookmarked m)) m) ms /\
  (fun m => truthy (isBookmarked m)) <$> ms'' =
    (fun m => truthy (isBookmarked m)) <$> ms /\
  (forall m, elem_of m ms -> isBookmarked m <> None -> elem_of m ms'').
Proof.
  intros ms''.
  assert (E : ms'' = map_by_id messageId
                 (fun m => set_isBookmarked (truthy (isBookmarked m)) m) ms).
  { unfold ms'', bookmark_updater, map_by_id. rewrite map_map.
    apply map_ext. intros m.
    destruct (String.eqb (id m) messageId) eqn:Em; simpl; rewrite Em; [|done].
    by destruct (truthy (isBookmarked m)). }
  split; [exact E|]. split.
  - rewrite E. unfold map_by_id. rewrite <- list_fmap_compose.
    apply list_fmap_ext. intros _ m _. simpl.
    destruct (String.eqb (id m) messageId); [|done]. simpl.
    by destruct (truthy (isBookmarked m)).
  - intros m Hm Hb. rewrite E. unfold map_by_id.
    apply list_elem_of_fmap. exists m. split; [|done].
    destruct (String.eqb (id m) messageId); [|done].
    destruct m as [? ? ? ? ? ? ? [[]|] ? ?]; simpl in *; done.
Qed.

Lemma bookmark_twice_restores_witness :
  let ms := imap (message_of_server (fun _ => 5%N)) server_c2 in
  let m := message_of_server (fun _ => 5%N) 1
             (ServerMessage.mk EmptyString assistant "In the Ops space."
                "2023-11-13T09:00:04Z" (Some true) (Some 1%Z) None) in
  elem_of m ms /\ isBookmarked m <> None /\
  elem_of m (bookmark_updater "5" EmptyString
               (bookmark_updater "5" EmptyString ms)).
Proof.
  intros ms m.
  assert (Hin : elem_of m ms) by (apply list_elem_of_lookup; by exists 1).
  assert (Hb : isBookmarked m <> None) by discriminate.
  split; [exact Hin|]. split; [exact Hb|].
  exact (proj2 (proj2 (bookmark_twice_restores "5" EmptyString EmptyString ms))
           m Hin Hb).
Defined.

(** X21.  The message actions never look at the HTTP status: whenever the
    request itself does not fail, ok or not, the next render shows the
    local change (the edit, the deletion, the toggled bookmark, the
    rating); when it fails the list stays as it is and the action's error
    text is set. *)
Theorem actions_ignore_http_status (messageId content err : string)
    (feedback : Z) (r : Fetch unit) (s : Session) :
  rendered (app s) ->
  let shown s' := messages (render (app s')) in
  let ms := messages (app s) in
  ((forall e, r <> fetch_rejected e) ->
   shown (handleEditMessage messageId content r s) =
     edit_updater messageId content EmptyString ms /\
   shown (handleDeleteMessage messageId r s) =
     delete_updater messageId EmptyString ms /\
   shown (handleBookmarkMessage messageId r s) =
     bookmark_updater messageId EmptyString ms /\
   shown (handleFeedbackMessage messageId feedback r s) =
     feedback_updater messageId feedback EmptyString ms) /\
  (let failed :=
     [handleEditMessage messageId content (fetch_rejected err) s;
      handleDeleteMessage messageId (fetch_rejected err) s;
      handleBookmarkMessage messageId (fetch_rejected err) s;
      handleFeedbackMessage messageId feedback (fetch_rejected err) s] in
   Forall (fun s' => shown s' = ms) failed /\
   error <$> (app <$> failed) =
     [Some "Failed to edit message"; Some "Failed to delete message";
      Some "Failed to bookmark message"; Some "Failed to set feedback"]).
Proof.
  intros Hp shown ms. unfold shown, ms. split.
  - intros Hr.
    assert (Hcases : r = fetch_ok tt \/ r = fetch_not_ok).
    { destruct r as [[]| |e]; [by left | by right | by destruct (Hr e)]. }
    unfold handleEditMessage, handleDeleteMessage, handleBookmarkMessage,
      handleFeedbackMessage.
    destruct Hcases as [-> | ->]; simpl; by rewrite Hp.
  - split; [|reflexivity].
    repeat first [apply Forall_nil_2 | apply Forall_cons_2];
      unfold render; simpl; by rewrite Hp.
Qed.

Lemma actions_ignore_http_status_witness :
  rendered (app session_completed) /\
  messages (render (app (handleDeleteMessage (id (userMessage clock0 "Hello"))
                           fetch_not_ok session_completed))) =
    [set_isStreaming false (set_content "Hi there" (assistantMessage clock0))].
Proof.
  split; [reflexivity|].
  destruct (proj1 (actions_ignore_http_status
                     (id (userMessage clock0 "Hello")) "x" "y" 1%Z fetch_not_ok
                     session_completed eq_refl) ltac:(discriminate))
    as (_ & H & _).
  exact H.
Defined.

(** X22.  No user message ever carries the streaming flag: the property
    holds for a list just loaded, and the send path (sent or failed) and
    the four message actions keep it. *)
Theorem users_never_streaming (now : nat -> N) (data : list ServerMessage.t)
    clock (cid content : string) (a : App) (c : Conn)
    (u : Updater) (messageId : string) ref (ms : list Message) :
  users_not_streaming (imap (message_of_server now) data) /\
  (rendered a -> users_not_streaming (messages a) ->
   users_not_streaming (messages (fst (start_turn clock cid content a c)))) /\
  (action_target u messageId \/ u = delete_updater messageId ->
   users_not_streaming ms -> users_not_streaming (u ref ms)).
Proof.
  split; [|split].
  - apply Forall_forall. intros m Hm _.
    apply list_elem_of_lookup in Hm as [i Hi].
    rewrite list_lookup_imap in Hi.
    destruct (data !! i) as [d|]; simpl in Hi; by simplify_eq.
  - intros Hp Hu.
    destruct (UseWebSocket.isConnected c) eqn:Ho.
    + rewrite start_turn_sent by done. simpl.
      apply Forall_app. split; [done|].
      repeat first [apply Forall_nil_2 | apply Forall_cons_2]; simpl; done.
    + rewrite start_turn_failed by done. simpl.
      apply Forall_app. split; [done|]. by apply Forall_singleton.
  - intros [Hu | ->] Hms.
    + assert (exists change, u ref ms = map_by_id messageId change ms /\
                (forall m, role (change m) = role m) /\
                (forall m, isStreaming (change m) = isStreaming m))
        as (change & -> & Hr & Hs).
      { destruct Hu as [[x ->] | [-> | [x ->]]]; eexists;
          (split; [reflexivity|]); by split. }
      unfold map_by_id. apply Forall_fmap.
      eapply Forall_impl; [exact Hms|]. intros m Hm. simpl.
      destruct (String.eqb (id m) messageId); [|done].
      by rewrite Hr, Hs.
    + by apply Forall_kept_by_filter.
Qed.

Lemma users_never_streaming_witness :
  rendered app_completed /\ users_not_streaming (messages app_completed) /\
  users_not_streaming
    (messages (fst (start_turn clock1 "c1" "And then?" app_completed
                      conn_streaming))).
Proof.
  assert (H : users_not_streaming (messages app_completed)).
  { repeat first [apply Forall_nil_2 | apply Forall_cons_2];
      simpl; intros Hr; first [reflexivity | discriminate Hr]. }
  split; [reflexivity|]. split; [exact H|].
  exact (proj1 (proj2 (users_never_streaming (fun _ => 0%N) [] clock1 "c1"
                         "And then?" app_completed conn_streaming
                         (delete_updater "x") "x" EmptyString []))
           eq_refl H).
Defined.

(** * Loading a conversation *)

Lemma loaded_not_streaming (now : nat -> N) (data : list ServerMessage.t) :
  Forall (fun m => isStreaming m = None) (imap (message_of_server now) data).
Proof.
  apply Forall_forall. intros m Hm.
  apply list_elem_of_lookup in Hm as [i Hi].
  rewrite list_lookup_imap in Hi.
  destruct (data !! i) as [d|]; simpl in Hi; by simplify_eq.
Qed.

Lemma count_streaming_none (ms : list Message) :
  Forall (fun m => isStreaming m = None) ms -> count_streaming ms = 0.
Proof.
  induction 1 as [|m l Hm _ IH]; [done|].
  pose proof (count_streaming_app [m] l) as H. simpl in H.
  rewrite H, IH, count_streaming_single, Hm. done.
Qed.

Lemma run_updaters_snoc ref (us : list Updater) (u : Updater)
    (ms : list Message) :
  run_updaters ref (us ++ [u]) ms = u ref (run_updaters ref us ms).
Proof. unfold run_updaters. by rewrite fold_left_app. Qed.

(** X23.  Switching conversation replaces the list, it never merges: when
    the messages load, the next render shows exactly the fetched messages
    in server order, whatever the list held and whatever updaters were
    still queued; none of them is flagged streaming; the selected id is
    active; and the loading flag and the accumulator of a turn that was
    streaming are left as they were. *)
Theorem select_replaces_the_list (now : nat -> N) (id : string)
    (data : list ServerMessage.t) (r_prompt : Fetch (option string))
    (s : Session) :
  let s' := handleSelectConversation now id (fetch_ok data) r_prompt s in
  messages (render (app s')) = imap (message_of_server now) data /\
  length (messages (render (app s'))) = length data /\
  count_streaming (messages (render (app s'))) = 0 /\
  currentConversationId s' = Some id /\
  isLoading (app s') = isLoading (app s) /\
  currentMessageRef (app s') = currentMessageRef (app s).
Proof.
  intros s'.
  assert (E : messages (render (app s')) = imap (message_of_server now) data).
  { unfold s', handleSelectConversation, loadMessages.
    destruct r_prompt; simpl; by rewrite run_updaters_snoc. }
  rewrite E. split; [done|]. split; [apply length_imap|].
  split; [apply count_streaming_none, loaded_not_streaming|].
  unfold s', handleSelectConversation, loadMessages.
  by destruct r_prompt.
Qed.

(** X24.  When the messages of the selected conversation do not load (the
    response is not ok, or the request fails), the selected id is active
    all the same and the next render still shows the list as it was: the
    previous conversation's messages under the new conversation's id. *)
Theorem failed_load_keeps_previous_list (now : nat -> N) (id : string)
    (r_messages : Fetch (list ServerMessage.t))
    (r_prompt : Fetch (option string)) (s : Session) :
  (forall data, r_messages <> fetch_ok data) ->
  let s' := handleSelectConversation now id r_messages r_prompt s in
  currentConversationId s' = Some id /\
  messages (render (app s')) = messages (render (app s)) /\
  error (app s') = error (app s).
Proof.
  intros Hr s'. unfold s', handleSelectConversation, loadMessages.
  destruct r_messages as [data| |err]; [by destruct (Hr data)|..];
    by destruct r_prompt.
Qed.

Lemma failed_load_keeps_previous_list_witness :
  (forall data, @fetch_not_ok (list ServerMessage.t) <> fetch_ok data) /\
  currentConversationId
    (handleSelectConversation (fun _ => 0%N) "c2" fetch_not_ok fetch_not_ok
       session_completed) = Some "c2" /\
  messages (render (app (handleSelectConversation (fun _ => 0%N) "c2"
                           fetch_not_ok fetch_not_ok session_completed))) =
    messages (render (app session_completed)).
Proof.
  assert (H : forall data,
            @fetch_not_ok (list ServerMessage.t) <> fetch_ok data)
    by discriminate.
  split; [exact H|].
  destruct (failed_load_keeps_previous_list (fun _ => 0%N) "c2" fetch_not_ok
              fetch_not_ok session_completed H) as (H1 & H2 & _).
  exact (conj H1 H2).
Defined.

(** X25.  The two messages of one turn get different ids whenever the
    clock does not run backwards between them, so a message action aimed at
    the user's message never hits the turn's placeholder: deleting the
    user's message of a streaming turn leaves the placeholder in place. *)
Theorem turn_ids_differ clock (content : string) ref (front : list Message) :
  (now_user clock <= now_assistant clock)%N ->
  id (userMessage clock content) <> id (assistantMessage clock) /\
  last (delete_updater (id (userMessage clock content)) ref
          (front ++ [userMessage clock content; assistantMessage clock])) =
    Some (assistantMessage clock).
Proof.
  intros Hle.
  assert (Hne : id (userMessage clock content) <> id (assistantMessage clock)).
  { simpl. intros H. apply pretty_N_inj in H. lia. }
  split; [exact Hne|].
  unfold delete_updater.
  replace (front ++ [userMessage clock content; assistantMessage clock])
    with ((front ++ [userMessage clock content]) ++ [assistantMessage clock])
    by by rewrite <- app_assoc.
  rewrite filter_app, filter_cons, filter_nil.
  case_decide as Hd; [apply last_snoc | by destruct Hd].
Qed.

Lemma turn_ids_differ_witness :
  (now_user clock0 <= now_assistant clock0)%N /\
  last (delete_updater (id (userMessage clock0 "Hello")) EmptyString
          ([] ++ [userMessage clock0 "Hello"; assistantMessage clock0])) =
    Some (assistantMessage clock0).
Proof.
  assert (H : (now_user clock0 <= now_assistant clock0)%N) by reflexivity.
  split; [exact H|].
  exact (proj2 (turn_ids_differ clock0 "Hello" EmptyString [] H)).
Defined.

(** * Deleting and archiving conversations *)

(** X26.  Deleting or archiving a conversation other than the active one
    never touches the message list or the active id.  Deleting the active
    one clears both, whatever the HTTP status; archiving it clears them
    only while archived conversations are hidden.  A failed request changes
    neither. *)
Theorem remove_conversation_scope (id : string) (r : Fetch unit)
    (s : Session) :
  let d := handleDeleteConversation id r s in
  let a := handleArchiveConversation id r s in
  (currentConversationId s <> Some id \/ (exists e, r = fetch_rejected e) ->
   currentConversationId d = currentConversationId s /\
   currentConversationId a = currentConversationId s /\
   messages (render (app d)) = messages (render (app s)) /\
   messages (render (app a)) = messages (render (app s))) /\
  (currentConversationId s = Some id -> (forall e, r <> fetch_rejected e) ->
   currentConversationId d = None /\ messages (render (app d)) = [] /\
   (showArchived s = false ->
    currentConversationId a = None /\ messages (render (app a)) = []) /\
   (showArchived s = true ->
    currentConversationId a = Some id /\
    messages (render (app a)) = messages (render (app s)))).
Proof.
  intros d a. unfold d, a, handleDeleteConversation, handleArchiveConversation.
  split.
  - intros [Hne | [e ->]]; [|done].
    rewrite (bool_decide_false _ Hne). by destruct r.
  - intros Hc Hr. rewrite (bool_decide_true _ Hc).
    assert (Hcases : r = fetch_ok tt \/ r = fetch_not_ok).
    { destruct r as [[]| |e]; [by left | by right | by destruct (Hr e)]. }
    split; [by destruct Hcases as [-> | ->]|].
    split; [destruct Hcases as [-> | ->]; simpl; by rewrite run_updaters_snoc|].
    split; intros Ha; rewrite Ha; simpl.
    + split; [by destruct Hcases as [-> | ->]|].
      destruct Hcases as [-> | ->]; simpl; by rewrite run_updaters_snoc.
    + split; destruct Hcases as [-> | ->]; simpl; by rewrite ?Hc.
Qed.

Lemma remove_conversation_scope_witness :
  currentConversationId session_completed <> Some "c9" /\
  messages (render (app (handleDeleteConversation "c9" (fetch_ok tt)
                           session_completed))) =
    messages (render (app session_completed)) /\
  currentConversationId session_completed = Some "c1" /\
  messages (render (app (handleDeleteConversation "c1" fetch_not_ok
                           session_completed))) = [].
Proof.
  assert (H : currentConversationId session_completed <> Some "c9")
    by discriminate.
  split; [exact H|].
  destruct (proj1 (remove_conversation_scope "c9" (fetch_ok tt)
                     session_completed) (or_introl H)) as (_ & _ & H1 & _).
  split; [exact H1|]. split; [reflexivity|].
  destruct (proj2 (remove_conversation_scope "c1" fetch_not_ok
                     session_completed) eq_refl ltac:(discriminate))
    as (_ & H2 & _).
  exact H2.
Defined.

(** X27.  Creating a new conversation mid-stream gives a list that frames
    of the old turn cannot reach: when the create call succeeds the next
    render shows an empty list under the new id with an empty system
    prompt, and every later frame, of any kind and in any batching, leaves
    that list empty.  A response that is not ok changes nothing but the
    record of the call. *)
Theorem new_conversation_is_out_of_reach (new_id : string) (s : Session)
    (batches : list (list WebSocketMessage)) :
  let s' := handleNewConversation (fetch_ok new_id) s in
  currentConversationId s' = Some new_id /\
  systemPrompt s' = EmptyString /\
  messages (render (app s')) = [] /\
  messages (deliver_all batches (render (app s'))) = [] /\
  app (handleNewConversation fetch_not_ok s) = app s /\
  currentConversationId (handleNewConversation fetch_not_ok s) =
    currentConversationId s.
Proof.
  intros s'.
  assert (E : messages (render (app s')) = []).
  { unfold s', handleNewConversation. simpl. by rewrite run_updaters_snoc. }
  split; [done|]. split; [done|]. split; [exact E|]. split; [|done].
  cut (messages (render (app s')) = [] ->
       messages (deliver_all batches (render (app s'))) = []);
    [by intros H; apply H|].
  apply (deliver_all_rel (fun ms ms' => ms = [] -> ms' = [])
                         (fun _ => true));
    [done | | | reflexivity | apply all_frames].
  - intros a b c Hab Hbc Ha. by apply Hbc, Hab.
  - intros f u _ Hu ref ms ->. destruct f; simpl in Hu; by simplify_eq.
Qed.

(** * The exported file's name *)

Lemma map_chars_length f (s : string) :
  String.length (map_chars f s) = String.length s.
Proof. induction s as [|c s IH]; simpl; congruence. Qed.

Lemma map_chars_compose f g (s : string) :
  map_chars f (map_chars g s) = map_chars (fun c => f (g c)) s.
Proof. induction s as [|c s IH]; simpl; congruence. Qed.

Lemma map_chars_ext f g (s : string) :
  (forall c, f c = g c) -> map_chars f s = map_chars g s.
Proof. intros H. induction s as [|c s IH]; simpl; congruence. Qed.

Lemma all_chars_map p f (s : string) :
  (forall c, p (f c) = true) -> all_chars p (map_chars f s) = true.
Proof.
  intros H. induction s as [|c s IH]; [done|]. simpl. by rewrite H, IH.
Qed.

Lemma map_chars_id_on f p (s : string) :
  (forall c, p c = true -> f c = c) -> all_chars p s = true ->
  map_chars f s = s.
Proof.
  intros H. induction s as [|c s IH]; [done|]. simpl.
  intros [Hc Hs]%andb_true_iff. by rewrite (H c Hc), IH.
Qed.

Lemma sanitize_char_facts (c : Ascii.ascii) :
  is_clean (sanitize_char c) = true /\
  sanitize_char (sanitize_char c) = sanitize_char c /\
  (is_clean c = true -> sanitize_char c = c).
Proof.
  destruct c as [[] [] [] [] [] [] [] []]; vm_compute;
    repeat split; congruence.
Qed.

Lemma sanitize_is_map (title : string) :
  toLowerCase (replace_non_alnum title) = map_chars sanitize_char title.
Proof.
  unfold toLowerCase, replace_non_alnum. rewrite map_chars_compose.
  apply map_chars_ext. intros c. reflexivity.
Qed.

(** X28.  The title part of the exported file's name is safe and stable:
    it has the title's length, holds only the characters a-z, 0-9 and [_],
    is left as it is by a second pass, and is the title itself when the
    title already holds only such characters; the whole name is that part
    between "conversation-" and the time stamp. *)
Theorem export_filename_is_clean (title : string) (now : N) :
  let part := toLowerCase (replace_non_alnum title) in
  String.length part = String.length title /\
  all_chars is_clean part = true /\
  toLowerCase (replace_non_alnum part) = part /\
  (all_chars is_clean title = true -> part = title) /\
  export_filename title now =
    "conversation-" +:+ part +:+ "-" +:+ pretty now +:+ ".json".
Proof.
  intros part. unfold part. rewrite !sanitize_is_map.
  split; [apply map_chars_length|].
  split; [apply all_chars_map; intros c;
          exact (proj1 (sanitize_char_facts c))|].
  split.
  - rewrite map_chars_compose. apply map_chars_ext.
    intros c. exact (proj1 (proj2 (sanitize_char_facts c))).
  - split; [|unfold export_filename; by rewrite sanitize_is_map].
    apply map_chars_id_on. intros c.
    exact (proj2 (proj2 (sanitize_char_facts c))).
Qed.

Lemma export_filename_is_clean_witness :
  all_chars is_clean "q3_plan" = true /\
  toLowerCase (replace_non_alnum "q3_plan") = "q3_plan" /\
  export_filename "Q3 Plan: v2!" 1700000000000 =
    "conversation-q3_plan__v2_-1700000000000.json".
Proof.
  split; [reflexivity|].
  split; [|reflexivity].
  exact (proj1 (proj2 (proj2 (proj2
           (export_filename_is_clean "q3_plan" 0)))) eq_refl).
Defined.
